(** * code2md: a directory-to-Markdown converter

    Shallow embedding of [src/documentation/code2md.py] and the
    properties of its scan, rendering and error paths.

    Conventions of the model:
    - a Python [str] that names a path, a pattern or a label is a Rocq
      [string]; each character stands for one code point below 256;
    - the text of a file and the text written to the output or printed is
      a [text], a list of Unicode code points;
    - library code the script calls ([posixpath], [pathlib], the codecs,
      [os.walk]) is modelled next to the script's own functions; the
      regular-expression engine is an interface ([ReEngine]) with one
      executable instance;
    - a run is a computation that logs what it prints, walks, creates and
      writes, and may raise; what it reads comes from one snapshot of the
      file system, and printing and writing to an open file succeed. *)

From Stdlib Require Import String Ascii List Bool Arith NArith Lia.
From Stdlib Require Import Permutation Sorted.
From Stdlib Require Import DecimalString.
Import ListNotations.

Local Open Scope string_scope.
Local Open Scope list_scope.

(** ** Python strings *)

Module PyStr.

Definition chars (s : string) : list ascii := list_ascii_of_string s.
Definition of_chars (l : list ascii) : string := string_of_list_ascii l.

Definition sep : ascii := "/"%char.
Definition dot : ascii := "."%char.

(** [s.startswith(p)] *)
Definition startswith (s p : string) : bool := String.prefix p s.

Fixpoint list_prefix (p l : list ascii) : bool :=
  match p, l with
  | [], _ => true
  | _ :: _, [] => false
  | a :: p', b :: l' => Ascii.eqb a b && list_prefix p' l'
  end.

(** [s.endswith(p)] *)
Definition endswith (s p : string) : bool :=
  list_prefix (rev (chars p)) (rev (chars s)).

(** [s.split(c)] for a one-character separator: never the empty list. *)
Fixpoint split_chars (c : ascii) (l : list ascii) : list (list ascii) :=
  match l with
  | [] => [[]]
  | a :: l' =>
      if Ascii.eqb a c then [] :: split_chars c l'
      else match split_chars c l' with
           | [] => [[a]]
           | w :: ws => (a :: w) :: ws
           end
  end.

Definition split (c : ascii) (s : string) : list string :=
  map of_chars (split_chars c (chars s)).

(** [c.join(parts)] *)
Definition join (c : string) (parts : list string) : string :=
  String.concat c parts.

(** [s.rfind(c)]: index of the last occurrence, [None] for -1. *)
Fixpoint rfind_chars (c : ascii) (l : list ascii) : option nat :=
  match l with
  | [] => None
  | a :: l' =>
      match rfind_chars c l' with
      | Some i => Some (S i)
      | None => if Ascii.eqb a c then Some 0 else None
      end
  end.

Definition rfind (c : ascii) (s : string) : option nat :=
  rfind_chars c (chars s).

(** [s[i:]] *)
Definition drop (i : nat) (s : string) : string :=
  of_chars (skipn i (chars s)).

(** [s.replace(a, b)] for single characters. *)
Definition replace (a b : ascii) (s : string) : string :=
  of_chars (map (fun c => if Ascii.eqb c a then b else c) (chars s)).

(** [str.lower] on code points below 256: A-Z and the upper-case letters
    of the Latin-1 block (U+00C0..U+00DE without U+00D7) move up by 32. *)
Definition lower_char (c : ascii) : ascii :=
  let n := N_of_ascii c in
  if ((65 <=? n) && (n <=? 90))%N
     || ((192 <=? n) && (n <=? 222) && negb (n =? 215))%N
  then ascii_of_N (n + 32) else c.

Definition lower (s : string) : string :=
  of_chars (map lower_char (chars s)).

(** [sorted] on a list of strings: insertion sort on the code-point
    order. *)
Fixpoint insert (x : string) (l : list string) : list string :=
  match l with
  | [] => [x]
  | y :: l' => if String.leb x y then x :: l else y :: insert x l'
  end.

Fixpoint sorted (l : list string) : list string :=
  match l with
  | [] => []
  | x :: l' => insert x (sorted l')
  end.

(** [str(n)] for a natural number. *)
Definition of_nat (n : nat) : string :=
  NilZero.string_of_uint (Nat.to_uint n).

End PyStr.

(** ** posixpath and pathlib *)

Module PosixPath.
Import PyStr.

(** [os.path.join(a, b)] *)
Definition join (a b : string) : string :=
  if startswith b "/" then b
  else if (String.eqb a "" || endswith a "/")%bool then (a ++ b)%string
  else (a ++ "/" ++ b)%string.

Definition isabs (p : string) : bool := startswith p "/".

(** The loop of [normpath]: [acc] is [new_comps] in reverse. *)
Fixpoint norm_comps (initial_slashes : bool) (comps acc : list string)
  : list string :=
  match comps with
  | [] => rev acc
  | comp :: rest =>
      if (String.eqb comp "" || String.eqb comp ".")%bool
      then norm_comps initial_slashes rest acc
      else if (negb (String.eqb comp "..")
               || (negb initial_slashes && match acc with [] => true | _ => false end)
               || match acc with top :: _ => String.eqb top ".." | [] => false end)%bool
      then norm_comps initial_slashes rest (comp :: acc)
      else match acc with
           | [] => norm_comps initial_slashes rest acc
           | _ :: acc' => norm_comps initial_slashes rest acc'
           end
  end.

(** [os.path.normpath(path)] *)
Definition normpath (path : string) : string :=
  if String.eqb path "" then "."
  else
    let initial : string :=
      if startswith path "/" then
        if (startswith path "//" && negb (startswith path "///"))%bool
        then "//" else "/"
      else "" in
    let comps := norm_comps (startswith path "/") (split sep path) [] in
    let p := (initial ++ PyStr.join "/" comps)%string in
    if String.eqb p "" then "." else p.

(** [os.path.abspath(path)], with [cwd] for [os.getcwd()]. *)
Definition abspath (cwd path : string) : string :=
  normpath (if isabs path then path else join cwd path).

(** Length of the common prefix of two component lists. *)
Fixpoint common (a b : list string) : nat :=
  match a, b with
  | x :: a', y :: b' => if String.eqb x y then S (common a' b') else 0
  | _, _ => 0
  end.

Definition nonempty (s : string) : bool := negb (String.eqb s "").

Definition join_all (parts : list string) : string :=
  match parts with
  | [] => ""
  | p :: ps => fold_left join ps p
  end.

(** [os.path.relpath(path, start)]; [path] is never empty where the
    script calls it. *)
Definition relpath (cwd path start : string) : string :=
  let start_list := filter nonempty (split sep (abspath cwd start)) in
  let path_list := filter nonempty (split sep (abspath cwd path)) in
  let i := common start_list path_list in
  let rel_list :=
    repeat ".." (length start_list - i) ++ skipn i path_list in
  match rel_list with
  | [] => "."
  | _ => join_all rel_list
  end.

(** [os.path.dirname(p)]: everything up to the last slash, trailing
    slashes removed unless the head is only slashes. *)
Definition all_slashes (s : string) : bool :=
  forallb (Ascii.eqb sep) (chars s).

Fixpoint rstrip_sep (l : list ascii) : list ascii :=
  match l with
  | [] => []
  | a :: l' =>
      match rstrip_sep l' with
      | [] => if Ascii.eqb a sep then [] else [a]
      | r => a :: r
      end
  end.

Definition dirname (p : string) : string :=
  match rfind sep p with
  | None => ""
  | Some i =>
      let head := of_chars (firstn (S i) (chars p)) in
      if (nonempty head && negb (all_slashes head))%bool
      then of_chars (rstrip_sep (chars head)) else head
  end.

(** [os.path.basename(p)] *)
Definition basename (p : string) : string :=
  match rfind sep p with
  | None => p
  | Some i => drop (S i) p
  end.

(** [pathlib.Path(p).name]: the last component, after empty and [.]
    components are dropped. *)
Definition path_name (p : string) : string :=
  last (filter (fun c => negb (String.eqb c "" || String.eqb c "."))
          (split sep p)) "".

(** [pathlib.Path(p).suffix]: from the last dot of the name, when that
    dot is neither its first nor its last character. *)
Definition suffix (p : string) : string :=
  let name := path_name p in
  match rfind dot name with
  | Some i =>
      if ((0 <? i) && (i <? String.length name - 1))%nat
      then drop i name else ""
  | None => ""
  end.

End PosixPath.

(** ** Text and codecs *)

(** A decoded Python [str]: a list of Unicode code points. *)
Definition text := list N.

Module Codec.

Definition byte := N.          (* always below 256 where it matters *)

(** The code points of a path, pattern or label. *)
Definition str (s : string) : text := map N_of_ascii (PyStr.chars s).

Definition LF : N := 10.
Definition CR : N := 13.

(** A continuation byte [10xxxxxx]. *)
Definition is_cont (b : N) : bool := ((128 <=? b) && (b <=? 191))%N.
Definition low6 (b : N) : N := N.land b 63.

(** The strict UTF-8 decoder of CPython: shortest form only, no
    surrogates, nothing above U+10FFFF.  [None] is [UnicodeDecodeError]. *)
Fixpoint utf8_decode (bs : list N) : option text :=
  match bs with
  | [] => Some []
  | b0 :: r0 =>
      if (b0 <? 128)%N then option_map (cons b0) (utf8_decode r0)
      else if ((194 <=? b0) && (b0 <=? 223))%N then
        match r0 with
        | b1 :: r1 =>
            if is_cont b1
            then option_map (cons (N.land b0 31 * 64 + low6 b1)%N) (utf8_decode r1)
            else None
        | _ => None
        end
      else if ((224 <=? b0) && (b0 <=? 239))%N then
        match r0 with
        | b1 :: b2 :: r2 =>
            let c := (N.land b0 15 * 4096 + low6 b1 * 64 + low6 b2)%N in
            if (is_cont b1 && is_cont b2 && (2048 <=? c)
                && negb ((55296 <=? c) && (c <=? 57343)))%N
            then option_map (cons c) (utf8_decode r2)
            else None
        | _ => None
        end
      else if ((240 <=? b0) && (b0 <=? 244))%N then
        match r0 with
        | b1 :: b2 :: b3 :: r3 =>
            let c := (N.land b0 7 * 262144 + low6 b1 * 4096
                      + low6 b2 * 64 + low6 b3)%N in
            if (is_cont b1 && is_cont b2 && is_cont b3
                && (65536 <=? c) && (c <=? 1114111))%N
            then option_map (cons c) (utf8_decode r3)
            else None
        | _ => None
        end
      else None
  end.

(** [latin-1] and its alias [iso-8859-1]: byte [b] is code point [b]. *)
Definition latin1_decode (bs : list N) : option text := Some bs.

(** [cp1252]: Latin-1 outside 0x80..0x9F; five bytes are undefined. *)
Definition cp1252_high : list (N * N) :=
  [(128, 8364); (130, 8218); (131, 402); (132, 8222); (133, 8230);
   (134, 8224); (135, 8225); (136, 710); (137, 8240); (138, 352);
   (139, 8249); (140, 338); (142, 381); (145, 8216); (146, 8217);
   (147, 8220); (148, 8221); (149, 8226); (150, 8211); (151, 8212);
   (152, 732); (153, 8482); (154, 353); (155, 8250); (156, 339);
   (158, 382); (159, 376)]%N.

Definition cp1252_char (b : N) : option N :=
  if ((128 <=? b) && (b <=? 159))%N
  then option_map snd (find (fun kv => (fst kv =? b)%N) cp1252_high)
  else Some b.

Fixpoint cp1252_decode (bs : list N) : option text :=
  match bs with
  | [] => Some []
  | b :: r =>
      match cp1252_char b, cp1252_decode r with
      | Some c, Some t => Some (c :: t)
      | _, _ => None
      end
  end.

Inductive encoding := UTF8 | LATIN1 | CP1252 | ISO8859_1.

Definition decode (e : encoding) (bs : list N) : option text :=
  match e with
  | UTF8 => utf8_decode bs
  | LATIN1 | ISO8859_1 => latin1_decode bs
  | CP1252 => cp1252_decode bs
  end.

(** Text mode with [newline=None]: CR LF and a lone CR read as LF. *)
Fixpoint universal_newlines (t : text) : text :=
  match t with
  | [] => []
  | c :: r =>
      if (c =? CR)%N then
        match r with
        | d :: r' =>
            if (d =? LF)%N then LF :: universal_newlines r'
            else LF :: universal_newlines r
        | [] => [LF]
        end
      else c :: universal_newlines r
  end.

(** Number of bytes of the UTF-8 encoding of a code point. *)
Definition utf8_len (c : N) : nat :=
  if (c <? 128)%N then 1 else if (c <? 2048)%N then 2
  else if (c <? 65536)%N then 3 else 4.

Definition utf8_size (t : text) : nat :=
  fold_right (fun c n => utf8_len c + n) 0 t.

Definition bytes_of_string (s : string) : list N := str s.

(** A source literal: the bytes of the literal read as UTF-8. *)
Definition lit (s : string) : text :=
  match utf8_decode (bytes_of_string s) with
  | Some t => t
  | None => []
  end.

(** [content.endswith('\n')] *)
Definition ends_with_newline (t : text) : bool :=
  match rev t with
  | c :: _ => (c =? LF)%N
  | [] => false
  end.

End Codec.

(** ** Exceptions *)

(** The exceptions the script can meet, each with its message. *)
Inductive exn :=
| ReError (msg : text)       (* re.error: the pattern does not compile *)
| OSError (msg : text).      (* any failure of a file-system call *)

Definition exn_msg (e : exn) : text :=
  match e with ReError m | OSError m => m end.

Inductive result (A : Type) :=
| Ok (a : A)
| Raise (e : exn).
Arguments Ok {A} a.
Arguments Raise {A} e.

(** ** Regular expressions *)

(** What the script needs of [re]: compiling a pattern, which may fail,
    and searching a string for a match anywhere in it. *)
Class ReEngine := {
  compiled : Type;
  re_compile : string -> text + compiled;
  re_exec : compiled -> string -> bool
}.

(** [re.search(pattern, s)], as a truth value. *)
Definition re_search `{ReEngine} (pattern s : string) : result bool :=
  match re_compile pattern with
  | inl msg => Raise (ReError msg)
  | inr c => Ok (re_exec c s)
  end.

(** An executable engine for a fragment of Python's syntax: literal
    characters, [\c] for a character that is not alphanumeric, [.], [^],
    [$] and the postfix operators [*], [+], [?].  Everything else is
    refused by this instance. *)
Module Regex.

Inductive regex :=
| Eps
| Chr (c : ascii)
| Any                       (* [.]: any character but a newline *)
| Bol                       (* [^]: only at the start of the string *)
| Eol                       (* [$]: at the end, or before a final newline *)
| Cat (r1 r2 : regex)
| Alt (r1 r2 : regex)
| Star (r : regex).

Definition newline : ascii := "010"%char.

(** [matches r bol s k]: some prefix of [s] matches [r] and the rest
    satisfies [k]; [bol] tells whether [s] is the whole string. *)
Fixpoint matches (r : regex) (bol : bool) (s : list ascii)
    (k : bool -> list ascii -> bool) {struct r} : bool :=
  match r with
  | Eps => k bol s
  | Chr c =>
      match s with
      | a :: s' => Ascii.eqb a c && k false s'
      | [] => false
      end
  | Any =>
      match s with
      | a :: s' => negb (Ascii.eqb a newline) && k false s'
      | [] => false
      end
  | Bol => bol && k bol s
  | Eol =>
      match s with
      | [] => k bol s
      | [a] => Ascii.eqb a newline && k bol s
      | _ => false
      end
  | Cat r1 r2 => matches r1 bol s (fun b' s' => matches r2 b' s' k)
  | Alt r1 r2 => matches r1 bol s k || matches r2 bol s k
  | Star r1 =>
      (fix loop (fuel : nat) (b : bool) (t : list ascii) {struct fuel} : bool :=
         k b t ||
         match fuel with
         | 0 => false
         | S fuel' =>
             matches r1 b t
               (fun b' t' => Nat.ltb (length t') (length t) && loop fuel' b' t')
         end) (length s) bol s
  end.

(** A match starting at some position of the string. *)
Fixpoint search_from (r : regex) (bol : bool) (s : list ascii) : bool :=
  matches r bol s (fun _ _ => true) ||
  match s with
  | [] => false
  | _ :: s' => search_from r false s'
  end.

Definition search (r : regex) (s : string) : bool :=
  search_from r true (PyStr.chars s).

Definition is_alnum (c : ascii) : bool :=
  let n := N_of_ascii c in
  (((48 <=? n) && (n <=? 57)) || ((65 <=? n) && (n <=? 90))
   || ((97 <=? n) && (n <=? 122)))%N.

Definition is_special (c : ascii) : bool :=
  existsb (Ascii.eqb c) (PyStr.chars "()[]{}|").

(** The parser: [acc] is the sequence read so far, [last] the atom a
    postfix operator would apply to. *)
Definition seq (acc : regex) (last : option regex) : regex :=
  match last with
  | Some a => Cat acc a
  | None => acc
  end.

(** A postfix operator directly after another one (a lazy or possessive
    quantifier) is outside the fragment. *)
Definition next_is_postfix (p : list ascii) : bool :=
  match p with
  | c :: _ => existsb (Ascii.eqb c) (PyStr.chars "*+?")
  | [] => false
  end.

Fixpoint parse (p : list ascii) (acc : regex) (last : option regex)
  : option regex :=
  match p with
  | [] => Some (seq acc last)
  | c :: p' =>
      if Ascii.eqb c "\"%char then
        match p' with
        | e :: p'' =>
            if is_alnum e then None
            else parse p'' (seq acc last) (Some (Chr e))
        | [] => None
        end
      else if Ascii.eqb c "*"%char then
        match last with
        | Some a => if next_is_postfix p' then None
                    else parse p' (Cat acc (Star a)) None
        | None => None
        end
      else if Ascii.eqb c "+"%char then
        match last with
        | Some a => if next_is_postfix p' then None
                    else parse p' (Cat acc (Cat a (Star a))) None
        | None => None
        end
      else if Ascii.eqb c "?"%char then
        match last with
        | Some a => if next_is_postfix p' then None
                    else parse p' (Cat acc (Alt a Eps)) None
        | None => None
        end
      else if Ascii.eqb c "."%char then parse p' (seq acc last) (Some Any)
      else if Ascii.eqb c "^"%char then parse p' (Cat (seq acc last) Bol) None
      else if Ascii.eqb c "$"%char then parse p' (Cat (seq acc last) Eol) None
      else if is_special c then None
      else parse p' (seq acc last) (Some (Chr c))
  end.

Definition compile (pattern : string) : text + regex :=
  match parse (PyStr.chars pattern) Eps None with
  | Some r => inr r
  | None => inl (Codec.lit "pattern refused")
  end.

End Regex.

#[export] Instance regex_engine : ReEngine := {
  compiled := Regex.regex;
  re_compile := Regex.compile;
  re_exec := Regex.search
}.

(** ** The file system and the effects of a run *)

(** What [os.walk] sees under a directory: names in the order [scandir]
    gives them.  Regular files and real directories only. *)
#[local] Set Warnings "-register-all".
Inductive entry :=
| File (name : string)
| Dir (name : string) (children : list entry).

(** What [open(path, 'r')] followed by [read()] meets before decoding. *)
Inductive file_read :=
| Bytes (bs : list N)
| ReadFails (msg : text).

(** The part of the operating system a run depends on; reads come from
    one snapshot taken when the run starts. *)
Record os_env := {
  cwd : string;
  listing : string -> option (list entry);  (* [Some] iff a directory *)
  read_file : string -> file_read;
  path_exists : string -> bool;
  makedirs_error : string -> option text;
  open_write_error : string -> option text
}.

Definition isdir (env : os_env) (p : string) : bool :=
  match listing env p with Some _ => true | None => false end.

(** One constructor per [f.write] call of [generate_markdown]. *)
Inductive item :=
| Title (repo_name : string)
| Intro (repo_name : string)
| Total (n : nat)
| IndexHeading
| IndexEntry (relative_path anchor : string)
| IndexEnd
| FileHeading (relative_path : string)
| PathLine (relative_path : string)
| LangLine (language : string)
| FenceOpen (language : string)
| Content (content : text)
| FinalNewline
| FenceClose
| BlockEnd.

(** What a run does to the outside, in order. *)
Inductive event :=
| Print (line : text)
| Walk (directory : string)
| MakeDirs (path : string)
| OpenW (path : string)
| FWrite (it : item).

(** Computations that log events and may raise. *)
Definition M (A : Type) : Type := list event * result A.

Definition ret {A} (a : A) : M A := ([], Ok a).
Definition raise {A} (e : exn) : M A := ([], Raise e).
Definition emit (ev : event) : M unit := ([ev], Ok tt).

Definition bind {A B} (m : M A) (f : A -> M B) : M B :=
  match m with
  | (t, Raise e) => (t, Raise e)
  | (t, Ok a) => let (t', r) := f a in (t ++ t', r)
  end.

(** [try: m  except Exception as e: h e] *)
Definition try_catch {A} (m : M A) (h : exn -> M A) : M A :=
  match m with
  | (t, Raise e) => let (t', r) := h e in (t ++ t', r)
  | (t, Ok a) => (t, Ok a)
  end.

Definition lift {A} (r : result A) : M A := ([], r).

Definition bindR {A B} (r : result A) (f : A -> result B) : result B :=
  match r with
  | Ok a => f a
  | Raise e => Raise e
  end.

Declare Scope m_scope.
Delimit Scope m_scope with M.
Notation "x <- m ;; k" := (bind m (fun x => k))
  (at level 61, m at next level, right associativity) : m_scope.
Notation "m ;; k" := (bind m (fun _ => k))
  (at level 61, right associativity) : m_scope.
Notation "x <-- r ;; k" := (bindR r (fun x => k))
  (at level 61, r at next level, right associativity).

(** [for x in l: f x] *)
Fixpoint for_each {A} (l : list A) (f : A -> M unit) : M unit :=
  match l with
  | [] => ret tt
  | x :: l' => (f x ;; for_each l' f)%M
  end.

(** [enumerate(l, start)] *)
Fixpoint enumerate {A} (start : nat) (l : list A) : list (nat * A) :=
  match l with
  | [] => []
  | x :: l' => (start, x) :: enumerate (S start) l'
  end.

Definition trace {A} (m : M A) : list event := fst m.
Definition outcome {A} (m : M A) : result A := snd m.

(** The items written to the output file, in order. *)
Definition written (t : list event) : list item :=
  flat_map (fun ev => match ev with FWrite it => [it] | _ => [] end) t.

Definition print (line : text) : M unit := emit (Print line).

(** ** The converter: [class RepoToMarkdown] *)

Module RepoToMarkdown.
Import Codec.

(** [self]: the user's patterns; the two tables below are the same for
    every instance. *)
Record t := { ignore_patterns : list string }.

Definition default_ignore : list string :=
  [ "\.git/.*"; "\.gitignore"; "__pycache__/.*"; "\.pyc$"; "\.pyo$";
    "node_modules/.*"; "\.vscode/.*"; "\.idea/.*"; "\.DS_Store"; "\.env";
    "\.log$"; "\.tmp$"; "\.cache/.*"; "dist/.*"; "build/.*";
    "\.egg-info/.*"; "venv/.*"; "env/.*"; "\.venv/.*"; "\.pytest_cache/.*";
    "\.coverage"; "coverage\.xml"; "\.nyc_output/.*"; "\.next/.*";
    "\.nuxt/.*" ].

Definition code_extensions : list (string * string) :=
  [ (".py", "python"); (".js", "javascript"); (".ts", "typescript");
    (".jsx", "jsx"); (".tsx", "tsx"); (".java", "java"); (".c", "c");
    (".cpp", "cpp"); (".cc", "cpp"); (".cxx", "cpp"); (".h", "c");
    (".hpp", "cpp"); (".cs", "csharp"); (".php", "php"); (".rb", "ruby");
    (".go", "go"); (".rs", "rust"); (".swift", "swift"); (".kt", "kotlin");
    (".scala", "scala"); (".sh", "bash"); (".bash", "bash"); (".zsh", "zsh");
    (".fish", "fish"); (".ps1", "powershell"); (".html", "html");
    (".htm", "html"); (".css", "css"); (".scss", "scss"); (".sass", "sass");
    (".less", "less"); (".xml", "xml"); (".json", "json"); (".yaml", "yaml");
    (".yml", "yaml"); (".toml", "toml"); (".ini", "ini"); (".cfg", "ini");
    (".conf", "ini"); (".sql", "sql"); (".r", "r"); (".R", "r");
    (".m", "matlab"); (".pl", "perl"); (".lua", "lua"); (".vim", "vim");
    (".dockerfile", "dockerfile"); (".Dockerfile", "dockerfile");
    (".md", "markdown"); (".markdown", "markdown"); (".tex", "latex");
    (".vue", "vue"); (".svelte", "svelte"); (".dart", "dart"); (".elm", "elm");
    (".ex", "elixir"); (".exs", "elixir"); (".erl", "erlang");
    (".hrl", "erlang"); (".clj", "clojure"); (".cljs", "clojure");
    (".hs", "haskell"); (".lhs", "haskell"); (".ml", "ocaml");
    (".mli", "ocaml"); (".fs", "fsharp"); (".fsx", "fsharp"); (".jl", "julia");
    (".nim", "nim"); (".nims", "nim"); (".cr", "crystal"); (".zig", "zig");
    (".v", "v"); (".sv", "systemverilog"); (".vhd", "vhdl");
    (".vhdl", "vhdl") ].

(** [d.get(key)]; the table has no key twice. *)
Definition dict_get (d : list (string * string)) (key : string)
  : option string :=
  option_map snd (find (fun kv => String.eqb (fst kv) key) d).

Section WithEngine.
Context `{ReEngine}.

(** The loop of [should_ignore]: the first pattern that matches decides;
    a pattern that does not compile raises when the loop reaches it. *)
Fixpoint any_match (patterns : list string) (file_path : string)
  : result bool :=
  match patterns with
  | [] => Ok false
  | pattern :: rest =>
      found <-- re_search pattern file_path ;;
      if found then Ok true else any_match rest file_path
  end.

Definition should_ignore (self : t) (file_path : string) : result bool :=
  let all_patterns := default_ignore ++ ignore_patterns self in
  any_match all_patterns file_path.

Definition get_language_from_extension (file_path : string) : string :=
  let ext := PyStr.lower (PosixPath.suffix file_path) in
  match dict_get code_extensions ext with
  | Some language => language
  | None => "text"
  end.

Definition is_code_file (file_path : string) : bool :=
  let ext := PyStr.lower (PosixPath.suffix file_path) in
  match dict_get code_extensions ext with
  | Some _ => true
  | None => false
  end.

(** *** [get_file_content] *)

Definition encodings : list encoding := [UTF8; LATIN1; CP1252; ISO8859_1].

(** Which [return] of [get_file_content] is taken. *)
Inductive load_result :=
| Decoded (e : encoding) (content : text)
| ReadFailed (msg : text)
| Undecodable.

(** The loop over the encodings: a decode error moves on to the next
    one, any other failure ends the loop. *)
Fixpoint load (env : os_env) (file_path : string) (encs : list encoding)
  : load_result :=
  match encs with
  | [] => Undecodable
  | e :: rest =>
      match read_file env file_path with
      | ReadFails msg => ReadFailed msg
      | Bytes bs =>
          match decode e bs with
          | Some content => Decoded e (universal_newlines content)
          | None => load env file_path rest
          end
      end
  end.

Definition read_error_placeholder (msg : text) : text :=
  lit "# Erro ao ler arquivo: " ++ msg.

Definition undecodable_placeholder : text :=
  lit "# Arquivo não pôde ser decodificado".

Definition get_file_content (env : os_env) (file_path : string) : M text :=
  match load env file_path encodings with
  | Decoded _ content => ret content
  | ReadFailed msg =>
      (print (lit "Erro ao ler " ++ str file_path ++ lit ": " ++ msg) ;;
       ret (read_error_placeholder msg))%M
  | Undecodable => ret undecodable_placeholder
  end.

(** *** [scan_directory] *)

Definition dir_names (cs : list entry) : list string :=
  flat_map (fun e => match e with Dir d _ => [d] | File _ => [] end) cs.

Definition file_names (cs : list entry) : list string :=
  flat_map (fun e => match e with File f => [f] | Dir _ _ => [] end) cs.

(** [dirs[:] = [d for d in dirs if not should_ignore(join(root, d))]] *)
Fixpoint prune_dirs (self : t) (root : string) (dirs : list string)
  : result (list string) :=
  match dirs with
  | [] => Ok []
  | d :: rest =>
      ignored <-- should_ignore self (PosixPath.join root d) ;;
      kept <-- prune_dirs self root rest ;;
      Ok (if ignored then kept else d :: kept)
  end.

(** The loop over [files] of one directory. *)
Fixpoint scan_files (self : t) (env : os_env) (directory root : string)
    (files : list string) : result (list string) :=
  match files with
  | [] => Ok []
  | file :: rest =>
      let file_path := PosixPath.join root file in
      let relative_path := PosixPath.relpath (cwd env) file_path directory in
      ignored <-- should_ignore self relative_path ;;
      found <-- scan_files self env directory root rest ;;
      Ok (if negb ignored && is_code_file file_path
          then file_path :: found else found)
  end.

(** The walk goes on in the directories left in [dirs]: [visit] is the
    walk itself, called on [join(root, d)] for each entry [d] of the
    directory that is still in [dirs]. *)
Definition walk_dirs (visit : string -> entry -> result (list string))
    (root : string) (dirs : list string)
  : list entry -> result (list string) :=
  fix descend (l : list entry) : result (list string) :=
    match l with
    | [] => Ok []
    | File _ :: l' => descend l'
    | (Dir d _ as sub) :: l' =>
        if existsb (String.eqb d) dirs then
          a <-- visit (PosixPath.join root d) sub ;;
          b <-- descend l' ;;
          Ok (a ++ b)
        else descend l'
    end.

(** The loop over [os.walk(directory)] from the directory [root] down:
    [top] is that directory ([File] never occurs there), its entries give
    [dirs] and [files]; the body of the loop runs on them, then the walk
    goes on below. *)
Fixpoint walk (self : t) (env : os_env) (directory root : string)
    (top : entry) {struct top} : result (list string) :=
  match top with
  | File _ => Ok []
  | Dir _ cs =>
      dirs <-- prune_dirs self root (dir_names cs) ;;
      here <-- scan_files self env directory root (file_names cs) ;;
      below <-- walk_dirs (walk self env directory) root dirs cs ;;
      Ok (here ++ below)
  end.

Definition scan_directory (self : t) (env : os_env) (directory : string)
  : result (list string) :=
  code_files <--
    match listing env directory with
    | Some cs => walk self env directory directory (Dir directory cs)
    | None => Ok []
    end ;;
  Ok (PyStr.sorted code_files).

(** *** [generate_markdown] *)

Definition nl : text := [LF].

(** The text each [f.write] call sends to the file. *)
Definition render_item (it : item) : text :=
  match it with
  | Title repo_name => lit "# Código Fonte - " ++ str repo_name ++ nl ++ nl
  | Intro repo_name =>
      lit "Este documento contém todo o código fonte do repositório `"
      ++ str repo_name ++ lit "`." ++ nl ++ nl
  | Total n => lit "**Total de arquivos:** " ++ str (PyStr.of_nat n) ++ nl ++ nl
  | IndexHeading => lit "## Índice" ++ nl ++ nl
  | IndexEntry relative_path anchor =>
      lit "- [" ++ str relative_path ++ lit "](#" ++ str anchor ++ lit ")" ++ nl
  | IndexEnd => nl ++ lit "---" ++ nl ++ nl
  | FileHeading relative_path => lit "## " ++ str relative_path ++ nl ++ nl
  | PathLine relative_path =>
      lit "**Caminho:** `" ++ str relative_path ++ lit "`" ++ nl
  | LangLine language => lit "**Linguagem:** " ++ str language ++ nl ++ nl
  | FenceOpen language => lit "```" ++ str language ++ nl
  | Content content => content
  | FinalNewline => nl
  | FenceClose => lit "```" ++ nl ++ nl
  | BlockEnd => lit "---" ++ nl ++ nl
  end.

Definition render (doc : list item) : text := flat_map render_item doc.

(** [relative_path.replace('/', '-').replace('.', '-').replace('_', '-').lower()] *)
Definition anchor_of (relative_path : string) : string :=
  PyStr.lower
    (PyStr.replace "_" "-"
       (PyStr.replace "." "-" (PyStr.replace "/" "-" relative_path))).

(** The format [{n:,}]: groups of three digits from the right. *)
Fixpoint group3 (rev_digits : list ascii) (n : nat) : list ascii :=
  match rev_digits with
  | [] => []
  | d :: rest =>
      match n with
      | 3 => ","%char :: d :: group3 rest 1
      | _ => d :: group3 rest (S n)
      end
  end.

Definition with_commas (n : nat) : string :=
  PyStr.of_chars (rev (group3 (rev (PyStr.chars (PyStr.of_nat n))) 0)).

(** [open(output_file, 'w', encoding='utf-8')] *)
Definition open_write (env : os_env) (output_file : string) : M unit :=
  match open_write_error env output_file with
  | Some msg => raise (OSError msg)
  | None => emit (OpenW output_file)
  end.

(** The index loop, one file. *)
Definition write_index_entry (env : os_env) (directory file_path : string)
  : M unit :=
  let relative_path := PosixPath.relpath (cwd env) file_path directory in
  emit (FWrite (IndexEntry relative_path (anchor_of relative_path))).

(** The body loop, one file. *)
Definition write_file_block (env : os_env) (directory : string)
    (total : nat) (numbered : nat * string) : M unit :=
  let (i, file_path) := numbered in
  let relative_path := PosixPath.relpath (cwd env) file_path directory in
  let language := get_language_from_extension file_path in
  (print (lit "Processando (" ++ str (PyStr.of_nat i) ++ lit "/"
          ++ str (PyStr.of_nat total) ++ lit "): " ++ str relative_path) ;;
   emit (FWrite (FileHeading relative_path)) ;;
   emit (FWrite (PathLine relative_path)) ;;
   emit (FWrite (LangLine language)) ;;
   content <- get_file_content env file_path ;;
   emit (FWrite (FenceOpen language)) ;;
   emit (FWrite (Content content)) ;;
   (if negb (ends_with_newline content)
    then emit (FWrite FinalNewline) else ret tt) ;;
   emit (FWrite FenceClose) ;;
   emit (FWrite BlockEnd))%M.

(** The [with open(...) as f] block. *)
Definition write_document (env : os_env) (directory output_file : string)
    (code_files : list string) : M unit :=
  (open_write env output_file ;;
   let repo_name := PosixPath.basename (PosixPath.abspath (cwd env) directory) in
   emit (FWrite (Title repo_name)) ;;
   emit (FWrite (Intro repo_name)) ;;
   emit (FWrite (Total (length code_files))) ;;
   emit (FWrite IndexHeading) ;;
   for_each code_files (write_index_entry env directory) ;;
   emit (FWrite IndexEnd) ;;
   for_each (enumerate 1 code_files)
     (write_file_block env directory (length code_files)))%M.

Definition generate_markdown (self : t) (env : os_env)
    (directory output_file : string) : M unit :=
  (print (lit "Escaneando diretório: " ++ str directory) ;;
   emit (Walk directory) ;;
   code_files <- lift (scan_directory self env directory) ;;
   match code_files with
   | [] => print (lit "Nenhum arquivo de código encontrado!")
   | _ :: _ =>
       print (lit "Encontrados " ++ str (PyStr.of_nat (length code_files))
              ++ lit " arquivos de código") ;;
       let block := write_document env directory output_file code_files in
       block ;;
       print (lit "Arquivo Markdown gerado: " ++ str output_file) ;;
       (* [os.path.getsize]: the bytes of what was just written *)
       let size := utf8_size (render (written (trace block))) in
       print (lit "Tamanho do arquivo: " ++ str (with_commas size)
              ++ lit " bytes")
   end)%M.

End WithEngine.
End RepoToMarkdown.

(** ** [main] *)

Section Main.
Context `{ReEngine}.
Import Codec.

(** [os.makedirs(output_dir)] *)
Definition makedirs (env : os_env) (path : string) : M unit :=
  match makedirs_error env path with
  | Some msg => raise (OSError msg)
  | None => emit (MakeDirs path)
  end.

(** The patterns of the [-x] options: [args.exclude] is [None] without the
    option, else the list of its values. *)
Definition split_patterns (exclude : option (list string)) : list string :=
  match exclude with
  | Some values => flat_map (PyStr.split "|"%char) values
  | None => []
  end.

(** [main()] on parsed arguments; the value is the exit status it
    returns. *)
Definition main (env : os_env) (directory output : string)
    (exclude : option (list string)) : M nat :=
  if negb (isdir env directory) then
    (print (lit "Erro: Diretório '" ++ str directory ++ lit "' não encontrado!") ;;
     ret 1)%M
  else
    ((if negb (PyStr.endswith output ".md")
      then print (lit "Aviso: Arquivo de saída não tem extensão .md")
      else ret tt) ;;
     let output_dir := PosixPath.dirname output in
     (if PosixPath.nonempty output_dir && negb (path_exists env output_dir)
      then makedirs env output_dir else ret tt) ;;
     let ignore_patterns := split_patterns exclude in
     let converter := {| RepoToMarkdown.ignore_patterns := ignore_patterns |} in
     try_catch
       (RepoToMarkdown.generate_markdown converter env directory output ;;
        print (lit "Conversão concluída com sucesso!") ;;
        ret 0)
       (fun e =>
          print (lit "Erro durante a conversão: " ++ exn_msg e) ;;
          ret 1))%M.

(** [exit(main())]: an exception that leaves [main] ends the process with
    status 1. *)
Definition exit_status (r : result nat) : nat :=
  match r with
  | Ok code => code
  | Raise _ => 1
  end.

End Main.

(** Induction on a directory tree, with the hypothesis on every child. *)
Section EntryInduction.
Variable P : entry -> Prop.
Hypothesis P_file : forall name, P (File name).
Hypothesis P_dir : forall name cs, Forall P cs -> P (Dir name cs).

Fixpoint entry_tree_ind (e : entry) : P e :=
  match e with
  | File name => P_file name
  | Dir name cs =>
      P_dir name cs
        ((fix children (l : list entry) : Forall P l :=
            match l with
            | [] => Forall_nil P
            | c :: l' => Forall_cons c (entry_tree_ind c) (children l')
            end) cs)
  end.
End EntryInduction.

(** ** Reading a run *)

(** The parts of a written document the properties speak of. *)
Module Doc.

(** The relative paths of the index entries, in order. *)
Definition index_paths (doc : list item) : list string :=
  flat_map (fun it => match it with IndexEntry p _ => [p] | _ => [] end) doc.

(** The relative paths of the per-file headings, in order. *)
Definition heading_paths (doc : list item) : list string :=
  flat_map (fun it => match it with FileHeading p => [p] | _ => [] end) doc.

(** The tags of the opening fences, in order. *)
Definition fence_tags (doc : list item) : list string :=
  flat_map (fun it => match it with FenceOpen l => [l] | _ => [] end) doc.

(** The contents handed to [f.write(content)], in order. *)
Definition contents (doc : list item) : list text :=
  flat_map (fun it => match it with Content c => [c] | _ => [] end) doc.

(** The text between each opening fence and the closing fence after it:
    [cur] is the text gathered since the last opening fence, if one is
    open. *)
Fixpoint fenced (doc : list item) (cur : option text) : list text :=
  match doc with
  | [] => []
  | FenceOpen _ :: rest => fenced rest (Some [])
  | FenceClose :: rest =>
      match cur with
      | Some body => body :: fenced rest None
      | None => fenced rest None
      end
  | it :: rest =>
      match cur with
      | Some body =>
          fenced rest (Some (body ++ RepoToMarkdown.render_item it))
      | None => fenced rest None
      end
  end.

End Doc.

Section Reading.
Context `{ReEngine}.
Import RepoToMarkdown Codec.

(** The value [get_file_content] returns, by the [return] taken. *)
Definition content_value (env : os_env) (file_path : string) : text :=
  match load env file_path encodings with
  | Decoded _ content => content
  | ReadFailed msg => read_error_placeholder msg
  | Undecodable => undecodable_placeholder
  end.

(** What is written between the fences for a loaded content. *)
Definition fence_body (content : text) : list item :=
  if ends_with_newline content then [Content content]
  else [Content content; FinalNewline].

(** The items of one file block. *)
Definition block_items (env : os_env) (directory file_path : string)
  : list item :=
  let relative_path := PosixPath.relpath (cwd env) file_path directory in
  let language := get_language_from_extension file_path in
  [FileHeading relative_path; PathLine relative_path; LangLine language;
   FenceOpen language]
  ++ fence_body (content_value env file_path)
  ++ [FenceClose; BlockEnd].

Definition index_item (env : os_env) (directory file_path : string) : item :=
  let relative_path := PosixPath.relpath (cwd env) file_path directory in
  IndexEntry relative_path (anchor_of relative_path).

(** The items of a whole document, by file list. *)
Definition document_items (env : os_env) (directory : string)
    (code_files : list string) : list item :=
  let repo_name := PosixPath.basename (PosixPath.abspath (cwd env) directory) in
  [Title repo_name; Intro repo_name; Total (length code_files); IndexHeading]
  ++ map (index_item env directory) code_files
  ++ [IndexEnd]
  ++ flat_map (block_items env directory) code_files.

(** The files a call of [generate_markdown] renders: the scan result when
    the scan returns and the output file opens, no file otherwise. *)
Definition rendered_files (self : t) (env : os_env)
    (directory output_file : string) : list string :=
  match scan_directory self env directory with
  | Ok code_files =>
      match open_write_error env output_file with
      | None => code_files
      | Some _ => []
      end
  | Raise _ => []
  end.

(** The document a call of [generate_markdown] writes. *)
Definition rendered_doc (self : t) (env : os_env)
    (directory output_file : string) : list item :=
  written (trace (generate_markdown self env directory output_file)).

End Reading.

(** The label of an extension as the table gives it when case is
    ignored: the value of the first key equal to the extension up to
    case, [text] when there is none. *)
Definition label_ignoring_case (ext : string) : string :=
  match find (fun kv => String.eqb (PyStr.lower (fst kv)) (PyStr.lower ext))
          RepoToMarkdown.code_extensions with
  | Some (_, label) => label
  | None => "text"
  end.

(** The text between the fences for a loaded content: the content, and
    a newline after it when it does not end with one. *)
Definition with_final_newline (content : text) : text :=
  if Codec.ends_with_newline content then content
  else content ++ [Codec.LF].

(** The table with every key in lower case. *)
Definition lowered_extensions : list (string * string) :=
  map (fun kv => (PyStr.lower (fst kv), snd kv)) RepoToMarkdown.code_extensions.

Definition is_lower (s : string) : bool := String.eqb (PyStr.lower s) s.

Definition option_eqb (a b : option string) : bool :=
  match a, b with
  | Some x, Some y => String.eqb x y
  | None, None => true
  | _, _ => false
  end.

(** ** A sample file system *)

Module Sample.

(** Three directories seen from [/home/u]:
    - [proj]: [foo.py] (no final newline), [test_foo.py] (cannot be
      read), [b.txt], and [tmp/a.py] whose bytes are not UTF-8;
    - [build/app]: [setup.py] and [src/main.py];
    - [notes]: only [todo.txt].
    Nothing else exists. *)
Definition tree (p : string) : option (list entry) :=
  if String.eqb p "proj" then
    Some [File "foo.py"; File "test_foo.py"; File "b.txt";
          Dir "tmp" [File "a.py"]]
  else if String.eqb p "build/app" then
    Some [File "setup.py"; Dir "src" [File "main.py"]]
  else if String.eqb p "notes" then
    Some [File "todo.txt"]
  else None.

Definition reads (p : string) : file_read :=
  if String.eqb p "proj/foo.py" then Bytes (Codec.str "print(1)")
  else if String.eqb p "proj/tmp/a.py" then Bytes [35; 32; 255; 10]%N
  else if String.eqb p "build/app/setup.py" then Bytes (Codec.str "import os")
  else if String.eqb p "build/app/src/main.py" then Bytes (Codec.str "pass")
  else ReadFails (Codec.lit "[Errno 13] Permission denied").

Definition env : os_env := {|
  cwd := "/home/u";
  listing := tree;
  read_file := reads;
  path_exists := fun p => String.eqb p "out";
  makedirs_error := fun _ => None;
  open_write_error := fun _ => None
|}.

Definition no_patterns : RepoToMarkdown.t :=
  {| RepoToMarkdown.ignore_patterns := [] |}.

Definition only_tmp : RepoToMarkdown.t :=
  {| RepoToMarkdown.ignore_patterns := ["^tmp$"] |}.

Definition no_tests : RepoToMarkdown.t :=
  {| RepoToMarkdown.ignore_patterns := ["test_.*\.py"] |}.

(** The same file system when no file can be opened for writing. *)
Definition read_only : os_env := {|
  cwd := "/home/u";
  listing := tree;
  read_file := reads;
  path_exists := fun p => String.eqb p "out";
  makedirs_error := fun _ => None;
  open_write_error := fun _ => Some (Codec.lit "[Errno 13] Permission denied")
|}.

(** The same file system when [proj] lists its first two entries the
    other way round. *)
Definition swapped : os_env := {|
  cwd := "/home/u";
  listing := fun p =>
    if String.eqb p "proj" then
      Some [File "test_foo.py"; File "foo.py"; File "b.txt";
            Dir "tmp" [File "a.py"]]
    else tree p;
  read_file := reads;
  path_exists := fun p => String.eqb p "out";
  makedirs_error := fun _ => None;
  open_write_error := fun _ => None
|}.

End Sample.

(** ** Notions for the scan *)

(** A path the scan may return: a code file whose relative path no
    pattern matches. *)
Definition eligible `{ReEngine} (self : RepoToMarkdown.t) (env : os_env)
    (directory p : string) : Prop :=
  RepoToMarkdown.is_code_file p = true
  /\ RepoToMarkdown.should_ignore self
       (PosixPath.relpath (cwd env) p directory) = Ok false.

(** The order [sorted] sorts by. *)
Definition str_le (a b : string) : Prop := String.leb a b = true.

(** A self whose only user pattern does not compile. *)
Definition broken_pattern : RepoToMarkdown.t :=
  {| RepoToMarkdown.ignore_patterns := ["("] |}.

(** ** Notions for the anchors *)



(** ** Notions for the runs of [main] *)

Section MainNotions.
Import Codec.

(** The last line [main] prints after [generate_markdown]. *)
Definition closing_line (r : result unit) : text :=
  match r with
  | Ok _ => lit "Conversão concluída com sucesso!"
  | Raise e => lit "Erro durante a conversão: " ++ exn_msg e
  end.

(** What [main] prints and does before it calls [generate_markdown]. *)
Definition preamble (env : os_env) (output : string) : list event :=
  (if PyStr.endswith output ".md" then []
   else [Print (lit "Aviso: Arquivo de saída não tem extensão .md")])
  ++ (if PosixPath.nonempty (PosixPath.dirname output)
         && negb (path_exists env (PosixPath.dirname output))
      then [MakeDirs (PosixPath.dirname output)] else []).

End MainNotions.

(** ** Notions for paths *)

(** A file or directory name: not empty, not [.] or [..], no slash. *)
Definition is_name (n : string) : bool :=
  negb (String.eqb n "") && negb (String.eqb n ".")
  && negb (String.eqb n "..")
  && negb (existsb (Ascii.eqb PyStr.sep) (PyStr.chars n)).

(** The non-empty components of a path. *)
Definition comps (p : string) : list string :=
  filter PosixPath.nonempty (PyStr.split PyStr.sep p).

(** A component [normpath] keeps as it is: not empty, no slash. *)
Definition is_comp (n : string) : bool :=
  PosixPath.nonempty n
  && negb (existsb (Ascii.eqb PyStr.sep) (PyStr.chars n)).

(** Every name in the tree is a proper name. *)
Fixpoint well_named (e : entry) : bool :=
  match e with
  | File f => is_name f
  | Dir d cs => is_name d && forallb well_named cs
  end.

(** The names lead from the entries [cs] down to a file. *)
Fixpoint leads_to_file (names : list string) (cs : list entry) {struct names}
  : bool :=
  match names with
  | [] => false
  | [f] =>
      existsb (fun e => match e with
                        | File g => String.eqb f g
                        | Dir _ _ => false
                        end) cs
  | d :: rest =>
      existsb (fun e => match e with
                        | File _ => false
                        | Dir d' sub => String.eqb d d' && leads_to_file rest sub
                        end) cs
  end.

(** ** Notions for the order of a listing *)

(** Lists that are permutations of each other up to [R] on the elements. *)
Inductive perm_by {A : Type} (R : A -> A -> Prop) : list A -> list A -> Prop :=
| perm_by_nil : perm_by R [] []
| perm_by_skip (x y : A) (l l' : list A) :
    R x y -> perm_by R l l' -> perm_by R (x :: l) (y :: l')
| perm_by_swap (x x' y y' : A) (l l' : list A) :
    R x x' -> R y y' -> perm_by R l l' ->
    perm_by R (y :: x :: l) (x' :: y' :: l')
| perm_by_trans (l1 l2 l3 : list A) :
    perm_by R l1 l2 -> perm_by R l2 l3 -> perm_by R l1 l3.

(** The same tree, the entries of each directory listed in any order. *)
Inductive same_tree : entry -> entry -> Prop :=
| same_file (f : string) : same_tree (File f) (File f)
| same_dir (d : string) (cs cs' : list entry) :
    perm_by same_tree cs cs' -> same_tree (Dir d cs) (Dir d cs').

Section SameTreeInduction.
Variable P : entry -> entry -> Prop.
Hypothesis P_file : forall f, P (File f) (File f).
Hypothesis P_dir : forall d cs cs',
    perm_by P cs cs' -> P (Dir d cs) (Dir d cs').

Fixpoint same_tree_children_ind (e e' : entry) (H : same_tree e e') : P e e' :=
  match H with
  | same_file f => P_file f
  | same_dir d cs cs' Hp =>
      P_dir d cs cs'
        ((fix children (l l' : list entry) (Hl : perm_by same_tree l l')
            : perm_by P l l' :=
            match Hl with
            | perm_by_nil _ => perm_by_nil P
            | perm_by_skip _ x y l0 l0' r p =>
                perm_by_skip P x y l0 l0'
                  (same_tree_children_ind x y r) (children l0 l0' p)
            | perm_by_swap _ x x' y y' l0 l0' r1 r2 p =>
                perm_by_swap P x x' y y' l0 l0'
                  (same_tree_children_ind x x' r1)
                  (same_tree_children_ind y y' r2) (children l0 l0' p)
            | perm_by_trans _ l1 l2 l3 p1 p2 =>
                perm_by_trans P l1 l2 l3 (children l1 l2 p1) (children l2 l3 p2)
            end) cs cs' Hp)
  end.
End SameTreeInduction.

(** Two scans agree: the same files, or an exception on both sides. *)
Definition same_result (r r' : result (list string)) : Prop :=
  match r, r' with
  | Ok l, Ok l' => Permutation l l'
  | Raise _, Raise _ => True
  | _, _ => False
  end.

(** A loop that gathers the results of [f] on the elements of a list. *)
Fixpoint collect {A : Type} (f : A -> result (list string)) (l : list A)
  : result (list string) :=
  match l with
  | [] => Ok []
  | x :: l' => a <-- f x ;; b <-- collect f l' ;; Ok (a ++ b)
  end.

Section WalkLoops.
Context `{ReEngine}.
Import RepoToMarkdown.

(** The three loops of [walk] on one entry. *)
Definition prune_entry (self : t) (root : string) (c : entry)
  : result (list string) :=
  match c with
  | File _ => Ok []
  | Dir d _ =>
      ignored <-- should_ignore self (PosixPath.join root d) ;;
      Ok (if ignored then [] else [d])
  end.

Definition scan_entry (self : t) (env : os_env) (directory root : string)
    (c : entry) : result (list string) :=
  match c with
  | Dir _ _ => Ok []
  | File file =>
      let file_path := PosixPath.join root file in
      ignored <-- should_ignore self
                    (PosixPath.relpath (cwd env) file_path directory) ;;
      Ok (if negb ignored && is_code_file file_path then [file_path] else [])
  end.

Definition visit_entry (visit : string -> entry -> result (list string))
    (root : string) (dirs : list string) (c : entry) : result (list string) :=
  match c with
  | File _ => Ok []
  | Dir d _ =>
      if existsb (String.eqb d) dirs then visit (PosixPath.join root d) c
      else Ok []
  end.

End WalkLoops.

(** ** Notions for counts and sizes *)

(** The counts written by the [Total] line. *)
Definition totals (doc : list item) : list nat :=
  flat_map (fun it => match it with Total n => [n] | _ => [] end) doc.

(** A decimal digit. *)
Definition is_digit (c : ascii) : bool :=
  ((48 <=? N_of_ascii c) && (N_of_ascii c <=? 57))%N.

Definition not_comma (c : ascii) : bool := negb (Ascii.eqb c ","%char).

(** * Properties *)

(** ** The library models on examples *)

Example posix_join_1 : PosixPath.join "proj" "src" = "proj/src".
Proof. reflexivity. Qed.
Example posix_join_2 : PosixPath.join "proj/" "src" = "proj/src".
Proof. reflexivity. Qed.
Example posix_norm_1 : PosixPath.normpath "/a/./b/../c//d/" = "/a/c/d".
Proof. reflexivity. Qed.
Example posix_relpath_1 :
  PosixPath.relpath "/home/u" "./proj/src/a.py" "./proj" = "src/a.py".
Proof. reflexivity. Qed.
Example posix_relpath_2 :
  PosixPath.relpath "/home/u" "/x/y.py" "proj" = "../../../x/y.py".
Proof. reflexivity. Qed.
Example posix_suffix_1 : PosixPath.suffix "a/b.tar.GZ" = ".GZ".
Proof. reflexivity. Qed.
Example posix_suffix_2 : PosixPath.suffix "a/.bashrc" = "".
Proof. reflexivity. Qed.
Example posix_dirname_1 : PosixPath.dirname "out/docs/all.md" = "out/docs".
Proof. reflexivity. Qed.
Example py_sorted_1 : PyStr.sorted ["b/a.py"; "a/z.py"; "a.py"] = ["a.py"; "a/z.py"; "b/a.py"].
Proof. reflexivity. Qed.
Example py_lower_1 : PyStr.lower ".PY" = ".py".
Proof. reflexivity. Qed.
Example utf8_decode_ascii : Codec.utf8_decode [112; 105]%N = Some [112; 105]%N.
Proof. reflexivity. Qed.
Example utf8_decode_two : Codec.utf8_decode [195; 169]%N = Some [233]%N.
Proof. reflexivity. Qed.
Example utf8_decode_bad : Codec.utf8_decode [112; 255]%N = None.
Proof. reflexivity. Qed.
Example utf8_decode_overlong : Codec.utf8_decode [192; 128]%N = None.
Proof. reflexivity. Qed.
Example utf8_decode_surrogate : Codec.utf8_decode [237; 160; 128]%N = None.
Proof. reflexivity. Qed.
Example latin1_decode_any : Codec.decode Codec.LATIN1 [112; 255]%N = Some [112; 255]%N.
Proof. reflexivity. Qed.
Example cp1252_decode_undefined : Codec.decode Codec.CP1252 [129]%N = None.
Proof. reflexivity. Qed.
Example lit_accent : Codec.lit "não" = [110; 227; 111]%N.
Proof. reflexivity. Qed.
Example newlines_1 : Codec.universal_newlines [97; 13; 10; 98; 13]%N = [97; 10; 98; 10]%N.
Proof. reflexivity. Qed.
Example re_search_git : re_search "\.git/.*" "./.git" = Ok false.
Proof. reflexivity. Qed.
Example re_search_git_file : re_search "\.git/.*" ".git/config" = Ok true.
Proof. reflexivity. Qed.
Example re_search_pyc : re_search "\.pyc$" "a/b.pyc" = Ok true.
Proof. reflexivity. Qed.
Example re_search_pyc_mid : re_search "\.pyc$" "a/b.pyc.py" = Ok false.
Proof. reflexivity. Qed.
Example re_search_test : re_search "test_.*\.py" "test_foo.py" = Ok true.
Proof. reflexivity. Qed.
Example re_search_test_no : re_search "test_.*\.py" "foo.py" = Ok false.
Proof. reflexivity. Qed.
Example re_search_anchored : re_search "^tmp$" "proj/tmp" = Ok false.
Proof. reflexivity. Qed.
Example re_search_anchored_yes : re_search "^tmp$" "tmp" = Ok true.
Proof. reflexivity. Qed.
Example re_search_bad : exists m, re_search "*a" "a" = Raise (ReError m).
Proof. eexists; reflexivity. Qed.
Example re_search_star : re_search "ab*c" "xxabbbcx" = Ok true.
Proof. reflexivity. Qed.

(** ** Auxiliary facts *)

Lemma bindR_ok {A B} (r : result A) (f : A -> result B) (b : B) :
  bindR r f = Ok b <-> exists a, r = Ok a /\ f a = Ok b.
Proof.
  destruct r as [a|e]; simpl; split.
  - intros Hf. exists a. split; [reflexivity | exact Hf].
  - intros [a' [Ha Hf]]. inversion Ha. subst. exact Hf.
  - discriminate.
  - intros [a' [Ha _]]. discriminate.
Qed.

Lemma insert_in (x y : string) (l : list string) :
  In y (PyStr.insert x l) <-> y = x \/ In y l.
Proof.
  induction l as [|z l IH]; simpl.
  - intuition.
  - destruct (String.leb x z); simpl; rewrite ?IH; intuition.
Qed.

Lemma sorted_in (y : string) (l : list string) :
  In y (PyStr.sorted l) <-> In y l.
Proof.
  induction l as [|x l IH]; simpl.
  - reflexivity.
  - rewrite insert_in, IH. intuition.
Qed.

Lemma insert_perm (x : string) (l : list string) :
  Permutation (PyStr.insert x l) (x :: l).
Proof.
  induction l as [|z l IH]; simpl.
  - apply Permutation_refl.
  - destruct (String.leb x z).
    + apply Permutation_refl.
    + eapply Permutation_trans; [apply perm_skip, IH | apply perm_swap].
Qed.

Lemma sorted_perm (l : list string) : Permutation (PyStr.sorted l) l.
Proof.
  induction l as [|x l IH]; simpl.
  - apply perm_nil.
  - eapply Permutation_trans; [apply insert_perm | apply perm_skip, IH].
Qed.

(** ** Exclusion only ever removes files *)

Section Monotonic.
Context `{ReEngine}.
Import RepoToMarkdown.

Lemma any_match_true (ps : list string) (s : string) :
  any_match ps s = Ok true ->
  exists p, In p ps /\ re_search p s = Ok true.
Proof.
  induction ps as [|p ps IH]; simpl; [discriminate|].
  destruct (re_search p s) as [[|]|e] eqn:E; simpl; try discriminate.
  - intros _. exists p. auto.
  - intros Hm. destruct (IH Hm) as [q [Hq Hs]]. exists q. auto.
Qed.

Lemma any_match_false (ps : list string) (s : string) :
  any_match ps s = Ok false ->
  forall p, In p ps -> re_search p s = Ok false.
Proof.
  induction ps as [|p ps IH]; simpl; [contradiction|].
  destruct (re_search p s) as [[|]|e] eqn:E; simpl; try discriminate.
  intros Hm q [->|Hq]; [exact E | apply IH; assumption].
Qed.

Lemma any_match_incl (ps ps' : list string) (s : string) (b' : bool) :
  incl ps ps' ->
  any_match ps s = Ok true -> any_match ps' s = Ok b' -> b' = true.
Proof.
  intros Hi Hm Hm'. destruct b'; [reflexivity|].
  destruct (any_match_true _ _ Hm) as [p [Hp Hs]].
  pose proof (any_match_false _ _ Hm' p (Hi p Hp)) as Hf.
  congruence.
Qed.

Variables self self' : t.
Hypothesis more_patterns : incl (ignore_patterns self) (ignore_patterns self').

Lemma should_ignore_incl (s : string) (b' : bool) :
  should_ignore self s = Ok true -> should_ignore self' s = Ok b' ->
  b' = true.
Proof.
  unfold should_ignore. apply any_match_incl.
  apply incl_app; [apply incl_appl, incl_refl | apply incl_appr, more_patterns].
Qed.

Lemma prune_dirs_incl (root : string) (ds kept kept' : list string) :
  prune_dirs self root ds = Ok kept ->
  prune_dirs self' root ds = Ok kept' ->
  incl kept' kept.
Proof.
  revert kept kept'. induction ds as [|d ds IH]; simpl; intros kept kept' Hk Hk'.
  - inversion Hk'. intros x [].
  - apply bindR_ok in Hk. destruct Hk as [ig [Hig Hk]].
    apply bindR_ok in Hk. destruct Hk as [k [Hrest Hk]].
    apply bindR_ok in Hk'. destruct Hk' as [ig' [Hig' Hk']].
    apply bindR_ok in Hk'. destruct Hk' as [k' [Hrest' Hk']].
    inversion Hk; inversion Hk'; subst; clear Hk Hk'.
    specialize (IH _ _ Hrest Hrest').
    destruct ig'.
    + destruct ig; [assumption | apply incl_tl; assumption].
    + destruct ig.
      * pose proof (should_ignore_incl _ _ Hig Hig'). discriminate.
      * apply incl_cons; [left; reflexivity | apply incl_tl; assumption].
Qed.

Lemma scan_files_incl (env : os_env) (directory root : string)
    (fs found found' : list string) :
  scan_files self env directory root fs = Ok found ->
  scan_files self' env directory root fs = Ok found' ->
  incl found' found.
Proof.
  revert found found'. induction fs as [|f fs IH]; simpl; intros found found' Hk Hk'.
  - inversion Hk'. intros x [].
  - apply bindR_ok in Hk. destruct Hk as [ig [Hig Hk]].
    apply bindR_ok in Hk. destruct Hk as [k [Hrest Hk]].
    apply bindR_ok in Hk'. destruct Hk' as [ig' [Hig' Hk']].
    apply bindR_ok in Hk'. destruct Hk' as [k' [Hrest' Hk']].
    inversion Hk; inversion Hk'; subst; clear Hk Hk'.
    specialize (IH _ _ Hrest Hrest').
    destruct ig'; simpl.
    + destruct (negb ig && _); [apply incl_tl|]; assumption.
    + destruct ig; simpl.
      * pose proof (should_ignore_incl _ _ Hig Hig'). discriminate.
      * destruct (is_code_file _).
        -- apply incl_cons; [left; reflexivity | apply incl_tl; assumption].
        -- assumption.
Qed.

Lemma existsb_incl (d : string) (l l' : list string) :
  incl l' l -> existsb (String.eqb d) l' = true ->
  existsb (String.eqb d) l = true.
Proof.
  intros Hi He. apply existsb_exists in He. destruct He as [x [Hx Hd]].
  apply existsb_exists. exists x. split; [apply Hi; assumption | assumption].
Qed.

Lemma walk_dirs_incl (visit visit' : string -> entry -> result (list string))
    (root : string) (dirs dirs' : list string) (cs : list entry) :
  incl dirs' dirs ->
  Forall (fun c => forall r l l',
            visit r c = Ok l -> visit' r c = Ok l' -> incl l' l) cs ->
  forall below below',
    walk_dirs visit root dirs cs = Ok below ->
    walk_dirs visit' root dirs' cs = Ok below' ->
    incl below' below.
Proof.
  intros Hdirs Hcs.
  induction Hcs as [|c cs Hc _ IHcs]; simpl; intros below below' Hb Hb'.
  - inversion Hb'. intros x [].
  - destruct c as [f | d sub]; [eauto|].
    destruct (existsb (String.eqb d) dirs') eqn:E'.
    + rewrite (existsb_incl _ _ _ Hdirs E') in Hb.
      apply bindR_ok in Hb. destruct Hb as [v [Hv Hb]].
      apply bindR_ok in Hb. destruct Hb as [w [Hw Hb]].
      apply bindR_ok in Hb'. destruct Hb' as [v' [Hv' Hb']].
      apply bindR_ok in Hb'. destruct Hb' as [w' [Hw' Hb']].
      inversion Hb; inversion Hb'; subst.
      apply incl_app; [apply incl_appl | apply incl_appr]; eauto.
    + destruct (existsb (String.eqb d) dirs); [|eauto].
      apply bindR_ok in Hb. destruct Hb as [v [Hv Hb]].
      apply bindR_ok in Hb. destruct Hb as [w [Hw Hb]].
      inversion Hb; subst. apply incl_appr. eauto.
Qed.

Lemma walk_incl (env : os_env) (directory : string) (top : entry) :
  forall root l l',
    walk self env directory root top = Ok l ->
    walk self' env directory root top = Ok l' ->
    incl l' l.
Proof.
  induction top as [name | name cs IH] using entry_tree_ind;
    intros root l l' Hw Hw'.
  - simpl in Hw'. inversion Hw'. intros x [].
  - simpl in Hw, Hw'.
    apply bindR_ok in Hw. destruct Hw as [dirs [Hdirs Hw]].
    apply bindR_ok in Hw. destruct Hw as [here [Hhere Hw]].
    apply bindR_ok in Hw. destruct Hw as [below [Hbelow Hw]].
    apply bindR_ok in Hw'. destruct Hw' as [dirs' [Hdirs' Hw']].
    apply bindR_ok in Hw'. destruct Hw' as [here' [Hhere' Hw']].
    apply bindR_ok in Hw'. destruct Hw' as [below' [Hbelow' Hw']].
    inversion Hw; inversion Hw'; subst.
    apply incl_app; [apply incl_appl | apply incl_appr].
    + eapply scan_files_incl; eassumption.
    + eapply walk_dirs_incl; [| exact IH | eassumption | eassumption].
      eapply prune_dirs_incl; eassumption.
Qed.

Lemma scan_directory_incl (env : os_env) (directory : string)
    (l l' : list string) :
  scan_directory self env directory = Ok l ->
  scan_directory self' env directory = Ok l' ->
  incl l' l.
Proof.
  unfold scan_directory. intros Hs Hs'.
  apply bindR_ok in Hs. destruct Hs as [fs [Hfs Hs]].
  apply bindR_ok in Hs'. destruct Hs' as [fs' [Hfs' Hs']].
  inversion Hs; inversion Hs'; subst; clear Hs Hs'.
  intros x Hx. apply (proj2 (sorted_in _ _)).
  apply (proj1 (sorted_in _ _)) in Hx.
  destruct (listing env directory) as [cs|].
  - exact (walk_incl _ _ _ _ _ _ Hfs Hfs' x Hx).
  - inversion Hfs'; subst. contradiction.
Qed.

End Monotonic.

(** ** Traces of the effect monad *)

Lemma bind_ok {A B} (m : M A) (f : A -> M B) (a : A) :
  outcome m = Ok a ->
  trace (bind m f) = trace m ++ trace (f a) /\
  outcome (bind m f) = outcome (f a).
Proof.
  destruct m as [t r]; simpl. intros ->. simpl.
  destruct (f a) as [t' r']; simpl. split; reflexivity.
Qed.

Lemma written_app (t t' : list event) :
  written (t ++ t') = written t ++ written t'.
Proof. unfold written. apply flat_map_app. Qed.

Lemma written_flat_map {A} (g : A -> list event) (l : list A) :
  written (flat_map g l) = flat_map (fun x => written (g x)) l.
Proof.
  induction l as [|x l IH]; simpl; [reflexivity|].
  rewrite written_app, IH. reflexivity.
Qed.

Lemma for_each_ok {A} (f : A -> M unit) (l : list A) :
  (forall x, outcome (f x) = Ok tt) ->
  outcome (for_each l f) = Ok tt /\
  trace (for_each l f) = flat_map (fun x => trace (f x)) l.
Proof.
  intros Hf. induction l as [|x l [IHo IHt]]; simpl.
  - split; reflexivity.
  - destruct (bind_ok (f x) (fun _ => for_each l f) tt (Hf x)) as [Ht Ho].
    rewrite Ho, Ht, IHo, IHt. split; reflexivity.
Qed.

(** ** The written document *)

Section Document.
Context `{ReEngine}.
Import RepoToMarkdown Codec.

Lemma get_file_content_ok (env : os_env) (file_path : string) :
  outcome (get_file_content env file_path) = Ok (content_value env file_path)
  /\ written (trace (get_file_content env file_path)) = [].
Proof.
  unfold get_file_content, content_value.
  destruct (load env file_path encodings); split; reflexivity.
Qed.

Lemma write_file_block_ok (env : os_env) (directory : string) (total : nat)
    (numbered : nat * string) :
  outcome (write_file_block env directory total numbered) = Ok tt /\
  written (trace (write_file_block env directory total numbered))
  = block_items env directory (snd numbered).
Proof.
  destruct numbered as [i file_path]. unfold write_file_block, block_items.
  unfold content_value, get_file_content, fence_body. cbn [snd].
  generalize (PosixPath.relpath (cwd env) file_path directory) as rel.
  generalize (get_language_from_extension file_path) as lang.
  intros lang rel.
  generalize (lit "Processando (" ++ str (PyStr.of_nat i) ++ lit "/"
              ++ str (PyStr.of_nat total) ++ lit "): " ++ str rel) as line.
  intros line.
  destruct (load env file_path encodings) as [e c | msg |].
  - destruct (ends_with_newline c) eqn:E; unfold bind, emit, ret, print;
      cbn; rewrite E; cbn; split; reflexivity.
  - generalize (lit "Erro ao ler " ++ str file_path ++ lit ": " ++ msg) as err.
    intros err.
    generalize (read_error_placeholder msg) as c. intros c.
    destruct (ends_with_newline c) eqn:E; unfold bind, emit, ret, print;
      cbn; rewrite E; cbn; split; reflexivity.
  - generalize undecodable_placeholder as c. intros c.
    destruct (ends_with_newline c) eqn:E; unfold bind, emit, ret, print;
      cbn; rewrite E; cbn; split; reflexivity.
Qed.

Lemma flat_map_enumerate {A B} (g : A -> list B) (l : list A) (start : nat) :
  flat_map (fun x : nat * A => g (snd x)) (enumerate start l) = flat_map g l.
Proof.
  revert start. induction l as [|x l IH]; simpl; intros start; [reflexivity|].
  rewrite IH. reflexivity.
Qed.

Lemma bind_emit {B} (ev : event) (f : unit -> M B) :
  bind (emit ev) f = (ev :: trace (f tt), outcome (f tt)).
Proof. unfold bind, emit. destruct (f tt); reflexivity. Qed.

Lemma bind_ok_eq {A B} (m : M A) (f : A -> M B) (a : A) :
  outcome m = Ok a ->
  bind m f = (trace m ++ trace (f a), outcome (f a)).
Proof.
  destruct m as [t r]; simpl. intros ->. simpl.
  destruct (f a) as [t' r']; reflexivity.
Qed.

Lemma index_written (env : os_env) (directory : string) (l : list string) :
  flat_map (fun x => written (trace (write_index_entry env directory x))) l
  = map (index_item env directory) l.
Proof.
  induction l as [|x l IH]; [reflexivity|].
  cbn [flat_map map]. rewrite IH. reflexivity.
Qed.

Lemma write_document_ok (env : os_env) (directory output_file : string)
    (code_files : list string) :
  open_write_error env output_file = None ->
  outcome (write_document env directory output_file code_files) = Ok tt /\
  written (trace (write_document env directory output_file code_files))
  = document_items env directory code_files.
Proof.
  intros Hopen. unfold write_document, open_write, document_items.
  rewrite Hopen.
  generalize (PosixPath.basename (PosixPath.abspath (cwd env) directory)) as repo.
  intros repo.
  pose proof (for_each_ok (write_index_entry env directory) code_files
                (fun x => eq_refl)) as [Hio Hit].
  pose proof (for_each_ok
                (write_file_block env directory (length code_files))
                (enumerate 1 code_files)
                (fun x => proj1 (write_file_block_ok env directory _ x)))
    as [Hbo Hbt].
  set (blocks := for_each (enumerate 1 code_files) _) in *.
  set (index := for_each code_files _) in *.
  repeat (rewrite bind_emit; cbv beta zeta; cbn [trace outcome fst snd]).
  rewrite (bind_ok_eq index _ tt Hio). cbv beta.
  cbn [trace outcome fst snd].
  split; [exact Hbo|].
  change (written (OpenW output_file :: ?t)) with (written t).
  repeat match goal with
  | |- context [written (FWrite ?it :: ?t)] =>
      change (written (FWrite it :: t)) with (it :: written t)
  end.
  rewrite written_app.
  change (written (FWrite IndexEnd :: ?t)) with (IndexEnd :: written t).
  rewrite Hit, Hbt, !written_flat_map.
  cbn [app]. do 4 f_equal.
  rewrite index_written.
  f_equal. f_equal.
  rewrite <- (flat_map_enumerate (block_items env directory) code_files 1).
  apply flat_map_ext. intros x.
  apply (proj2 (write_file_block_ok env directory _ x)).
Qed.

Lemma generate_markdown_written (self : t) (env : os_env)
    (directory output_file : string) :
  rendered_doc self env directory output_file
  = match rendered_files self env directory output_file with
    | [] => []
    | f :: files => document_items env directory (f :: files)
    end.
Proof.
  unfold rendered_doc, rendered_files, generate_markdown, print.
  rewrite bind_emit. cbn [trace outcome fst snd].
  rewrite bind_emit. cbn [trace outcome fst snd].
  change (written (Print ?l :: Walk ?d :: ?t)) with (written t).
  unfold lift.
  destruct (scan_directory self env directory) as [files|e];
    [|reflexivity].
  unfold bind at 1. 
  destruct files as [|f files].
  - destruct (open_write_error env output_file); reflexivity.
  - set (code_files := f :: files).
    destruct (open_write_error env output_file) as [msg|] eqn:Hopen.
    + unfold write_document, open_write. rewrite Hopen.
      reflexivity.
    + destruct (write_document_ok env directory output_file code_files Hopen)
        as [Ho Hw].
      rewrite bind_emit. cbn [trace outcome fst snd]. 
      rewrite (bind_ok_eq _ _ tt Ho). cbn [trace outcome fst snd].
      rewrite !bind_emit. cbn [trace outcome fst snd app].
      change (written (Print ?l :: ?t)) with (written t).
      rewrite written_app, Hw. 
      change (written (Print ?l :: ?t)) with (written t).
      rewrite app_nil_r. reflexivity.
Qed.
End Document.

(** ** Index and headings *)

Section IndexAndBody.
Context `{ReEngine}.
Import RepoToMarkdown Codec.

Lemma index_paths_app (a b : list item) :
  Doc.index_paths (a ++ b) = Doc.index_paths a ++ Doc.index_paths b.
Proof. apply flat_map_app. Qed.

Lemma heading_paths_app (a b : list item) :
  Doc.heading_paths (a ++ b) = Doc.heading_paths a ++ Doc.heading_paths b.
Proof. apply flat_map_app. Qed.

Lemma fence_body_cases (c : text) :
  fence_body c = [Content c] \/ fence_body c = [Content c; FinalNewline].
Proof. unfold fence_body. destruct (ends_with_newline c); auto. Qed.

Lemma index_paths_index (env : os_env) (directory : string) (l : list string) :
  Doc.index_paths (map (index_item env directory) l)
  = map (fun p => PosixPath.relpath (cwd env) p directory) l.
Proof.
  induction l as [|x l IH]; [reflexivity|].
  cbn [map]. rewrite <- IH. reflexivity.
Qed.

Lemma index_paths_blocks (env : os_env) (directory : string) (l : list string) :
  Doc.index_paths (flat_map (block_items env directory) l) = [].
Proof.
  induction l as [|x l IH]; [reflexivity|].
  cbn [flat_map]. rewrite index_paths_app, IH, app_nil_r.
  unfold block_items.
  destruct (fence_body_cases (content_value env x)) as [-> | ->]; reflexivity.
Qed.

Lemma heading_paths_index (env : os_env) (directory : string) (l : list string) :
  Doc.heading_paths (map (index_item env directory) l) = [].
Proof. induction l as [|x l IH]; [reflexivity | exact IH]. Qed.

Lemma heading_paths_blocks (env : os_env) (directory : string) (l : list string) :
  Doc.heading_paths (flat_map (block_items env directory) l)
  = map (fun p => PosixPath.relpath (cwd env) p directory) l.
Proof.
  induction l as [|x l IH]; [reflexivity|].
  cbn [flat_map map]. rewrite heading_paths_app, IH.
  unfold block_items.
  destruct (fence_body_cases (content_value env x)) as [-> | ->]; reflexivity.
Qed.

Lemma document_index_paths (env : os_env) (directory : string) (l : list string) :
  Doc.index_paths (document_items env directory l)
  = map (fun p => PosixPath.relpath (cwd env) p directory) l.
Proof.
  unfold document_items.
  rewrite !index_paths_app, index_paths_index, index_paths_blocks.
  cbn. rewrite app_nil_r. reflexivity.
Qed.

Lemma document_heading_paths (env : os_env) (directory : string) (l : list string) :
  Doc.heading_paths (document_items env directory l)
  = map (fun p => PosixPath.relpath (cwd env) p directory) l.
Proof.
  unfold document_items.
  rewrite !heading_paths_app, heading_paths_index, heading_paths_blocks.
  reflexivity.
Qed.

(** C1.  In the document a call of [generate_markdown] writes, the
    relative paths of the index entries are, in the same order, the
    relative paths of the per-file headings; both are the relative paths
    of the files rendered, in scan order. *)
Theorem index_lists_the_headings (self : t) (env : os_env)
    (directory output_file : string) :
  let doc := rendered_doc self env directory output_file in
  Doc.index_paths doc = Doc.heading_paths doc /\
  Doc.heading_paths doc
  = map (fun p => PosixPath.relpath (cwd env) p directory)
      (rendered_files self env directory output_file).
Proof.
  cbv zeta. rewrite generate_markdown_written.
  destruct (rendered_files self env directory output_file) as [|f files].
  - split; reflexivity.
  - rewrite document_index_paths, document_heading_paths. split; reflexivity.
Qed.

End IndexAndBody.

(** ** Labels *)

Lemma lower_char_idem (c : ascii) :
  PyStr.lower_char (PyStr.lower_char c) = PyStr.lower_char c.
Proof. destruct c as [[] [] [] [] [] [] [] []]; reflexivity. Qed.

Lemma lower_idem (s : string) : PyStr.lower (PyStr.lower s) = PyStr.lower s.
Proof.
  unfold PyStr.lower, PyStr.chars, PyStr.of_chars.
  rewrite list_ascii_of_string_of_list_ascii, map_map.
  f_equal. apply map_ext. intros c. apply lower_char_idem.
Qed.

Lemma dict_get_none (d : list (string * string)) (x : string) :
  ~ In x (map fst d) -> RepoToMarkdown.dict_get d x = None.
Proof.
  unfold RepoToMarkdown.dict_get.
  induction d as [|[k v] d IH]; simpl; intros Hn; [reflexivity|].
  destruct (String.eqb_spec k x) as [->|Hne].
  - exfalso. apply Hn. left. reflexivity.
  - apply IH. intros Hin. apply Hn. right. exact Hin.
Qed.

Lemma option_eqb_eq (a b : option string) : option_eqb a b = true -> a = b.
Proof.
  destruct a as [x|], b as [y|]; simpl; try discriminate; try reflexivity.
  intros E. apply String.eqb_eq in E. subst. reflexivity.
Qed.

(** Two tables agree on every key that satisfies [p] as soon as they
    agree on those of their own keys that do. *)
Lemma dict_get_agree (p : string -> bool) (d1 d2 : list (string * string)) :
  forallb (fun k => implb (p k)
                      (option_eqb (RepoToMarkdown.dict_get d1 k)
                                  (RepoToMarkdown.dict_get d2 k)))
    (map fst d1 ++ map fst d2) = true ->
  forall x, p x = true ->
    RepoToMarkdown.dict_get d1 x = RepoToMarkdown.dict_get d2 x.
Proof.
  intros Hall x Hp.
  destruct (in_dec string_dec x (map fst d1 ++ map fst d2)) as [Hin|Hout].
  - rewrite forallb_forall in Hall. specialize (Hall x Hin).
    rewrite Hp in Hall. apply option_eqb_eq. exact Hall.
  - rewrite !dict_get_none; [reflexivity | |];
      intros Hin; apply Hout, in_or_app; auto.
Qed.

Lemma find_lowered (x : string) (d : list (string * string)) :
  option_map snd
    (find (fun kv => String.eqb (PyStr.lower (fst kv)) x) d)
  = RepoToMarkdown.dict_get
      (map (fun kv => (PyStr.lower (fst kv), snd kv)) d) x.
Proof.
  unfold RepoToMarkdown.dict_get.
  induction d as [|[k v] d IH]; simpl; [reflexivity|].
  destruct (String.eqb (PyStr.lower k) x); [reflexivity | exact IH].
Qed.

Lemma label_ignoring_case_lowered (ext : string) :
  label_ignoring_case ext
  = match RepoToMarkdown.dict_get lowered_extensions (PyStr.lower ext) with
    | Some label => label
    | None => "text"
    end.
Proof.
  unfold label_ignoring_case, lowered_extensions.
  rewrite <- find_lowered.
  destruct (find _ RepoToMarkdown.code_extensions) as [[k v]|]; reflexivity.
Qed.

Lemma tables_agree_on_lower (x : string) :
  is_lower x = true ->
  RepoToMarkdown.dict_get RepoToMarkdown.code_extensions x
  = RepoToMarkdown.dict_get lowered_extensions x.
Proof. apply dict_get_agree. vm_compute. reflexivity. Qed.

Lemma language_is_label (file_path : string) :
  RepoToMarkdown.get_language_from_extension file_path
  = label_ignoring_case (PosixPath.suffix file_path).
Proof.
  unfold RepoToMarkdown.get_language_from_extension.
  rewrite label_ignoring_case_lowered, tables_agree_on_lower; [reflexivity|].
  unfold is_lower. rewrite lower_idem. apply String.eqb_refl.
Qed.

Section Labels.
Context `{ReEngine}.
Import RepoToMarkdown Codec.

Lemma fence_tags_app (a b : list item) :
  Doc.fence_tags (a ++ b) = Doc.fence_tags a ++ Doc.fence_tags b.
Proof. apply flat_map_app. Qed.

Lemma fence_tags_index (env : os_env) (directory : string) (l : list string) :
  Doc.fence_tags (map (index_item env directory) l) = [].
Proof. induction l as [|x l IH]; [reflexivity | exact IH]. Qed.

Lemma fence_tags_blocks (env : os_env) (directory : string) (l : list string) :
  Doc.fence_tags (flat_map (block_items env directory) l)
  = map get_language_from_extension l.
Proof.
  induction l as [|x l IH]; [reflexivity|].
  cbn [flat_map map]. rewrite fence_tags_app, IH.
  unfold block_items, fence_body.
  destruct (ends_with_newline (content_value env x)); reflexivity.
Qed.

(** C5.  The tag of each opening fence is the label the table gives for
    the extension of the file when case is ignored, [text] when it gives
    none; every key of the table, looked up that way, has its own
    label. *)
Theorem fence_tag_is_the_label (self : t) (env : os_env)
    (directory output_file : string) :
  Doc.fence_tags (rendered_doc self env directory output_file)
  = map (fun p => label_ignoring_case (PosixPath.suffix p))
      (rendered_files self env directory output_file)
  /\ Forall (fun kv => label_ignoring_case (fst kv) = snd kv) code_extensions.
Proof.
  split.
  - rewrite generate_markdown_written.
    destruct (rendered_files self env directory output_file) as [|f files];
      [reflexivity|].
    unfold document_items.
    rewrite !fence_tags_app, fence_tags_index, fence_tags_blocks.
    cbn [app]. apply map_ext. intros p. apply language_is_label.
  - apply Forall_forall. intros kv Hin.
    pose proof (proj1 (forallb_forall
      (fun kv => String.eqb (label_ignoring_case (fst kv)) (snd kv))
      code_extensions)) as Hall.
    apply String.eqb_eq. apply Hall; [vm_compute; reflexivity | exact Hin].
Qed.

End Labels.

Section Fences.
Context `{ReEngine}.
Import RepoToMarkdown Codec.

Lemma with_final_newline_ends (c : text) :
  ends_with_newline (with_final_newline c) = true.
Proof.
  unfold with_final_newline. destruct (ends_with_newline c) eqn:E; [exact E|].
  unfold ends_with_newline. rewrite rev_app_distr. simpl. reflexivity.
Qed.

Lemma fenced_index (env : os_env) (directory : string) (l : list string)
    (rest : list item) :
  Doc.fenced (map (index_item env directory) l ++ rest) None
  = Doc.fenced rest None.
Proof. induction l as [|x l IH]; [reflexivity | exact IH]. Qed.

Lemma fenced_blocks (env : os_env) (directory : string) (l : list string) :
  Doc.fenced (flat_map (block_items env directory) l) None
  = map (fun p => with_final_newline (content_value env p)) l.
Proof.
  induction l as [|x l IH]; [reflexivity|].
  cbn [flat_map map]. rewrite <- IH.
  unfold block_items, fence_body, with_final_newline.
  destruct (ends_with_newline (content_value env x)); reflexivity.
Qed.

(** C6.  In the document a call of [generate_markdown] writes, the text
    between each opening fence and its closing fence is the content
    loaded for the file, as it is when it ends with a newline and with
    one newline after it otherwise; in both cases it ends with a
    newline. *)
Theorem fenced_text_ends_with_newline (self : t) (env : os_env)
    (directory output_file : string) :
  let bodies := Doc.fenced (rendered_doc self env directory output_file) None in
  bodies
  = map (fun p => with_final_newline (content_value env p))
      (rendered_files self env directory output_file)
  /\ Forall (fun body => ends_with_newline body = true) bodies
  /\ Forall (fun p =>
       outcome (get_file_content env p) = Ok (content_value env p))
       (rendered_files self env directory output_file).
Proof.
  cbv zeta.
  assert (E : Doc.fenced (rendered_doc self env directory output_file) None
              = map (fun p => with_final_newline (content_value env p))
                  (rendered_files self env directory output_file)).
  { rewrite generate_markdown_written.
    destruct (rendered_files self env directory output_file) as [|f files];
      [reflexivity|].
    unfold document_items.
    change ([Title ?a; Intro ?b; Total ?n; IndexHeading] ++ ?r)
      with (Title a :: Intro b :: Total n :: IndexHeading :: r).
    change (Doc.fenced (Title ?a :: Intro ?b :: Total ?n :: IndexHeading :: ?r) None)
      with (Doc.fenced r None).
    rewrite fenced_index.
    change (Doc.fenced ([IndexEnd] ++ ?r) None) with (Doc.fenced r None).
    apply fenced_blocks. }
  split; [exact E|]. split.
  - rewrite E. apply Forall_forall. intros body Hin.
    apply in_map_iff in Hin. destruct Hin as [p [<- _]].
    apply with_final_newline_ends.
  - apply Forall_forall. intros p _.
    apply (proj1 (get_file_content_ok env p)).
Qed.

End Fences.

(** ** Whole runs *)

Section Runs.
Context `{ReEngine}.
Import RepoToMarkdown Codec.

Lemma bind_ret {A B} (a : A) (f : A -> M B) : bind (ret a) f = f a.
Proof. unfold bind, ret. destruct (f a); reflexivity. Qed.

Lemma generate_markdown_outcome (self : t) (env : os_env)
    (directory output_file : string) :
  outcome (generate_markdown self env directory output_file)
  = match scan_directory self env directory with
    | Raise e => Raise e
    | Ok [] => Ok tt
    | Ok (_ :: _) =>
        match open_write_error env output_file with
        | Some msg => Raise (OSError msg)
        | None => Ok tt
        end
    end.
Proof.
  unfold generate_markdown, print.
  rewrite bind_emit. cbn [trace outcome fst snd].
  rewrite bind_emit. cbn [trace outcome fst snd].
  unfold lift.
  destruct (scan_directory self env directory) as [files|e];
    [|reflexivity].
  unfold bind at 1.
  destruct files as [|f files]; [reflexivity|].
  set (code_files := f :: files).
  rewrite bind_emit. cbn [trace outcome fst snd].
  destruct (open_write_error env output_file) as [msg|] eqn:Hopen.
  - unfold write_document, open_write. rewrite Hopen. reflexivity.
  - destruct (write_document_ok env directory output_file code_files Hopen)
      as [Ho Hw].
    rewrite (bind_ok_eq _ _ tt Ho). cbn [trace outcome fst snd].
    rewrite !bind_emit. reflexivity.
Qed.

(** What [main] does once the root is a directory and the output
    directory is there or can be made. *)
Lemma main_valid_root (env : os_env) (directory output : string)
    (exclude : option (list string)) :
  isdir env directory = true ->
  (PosixPath.nonempty (PosixPath.dirname output)
   && negb (path_exists env (PosixPath.dirname output)) = true ->
   makedirs_error env (PosixPath.dirname output) = None) ->
  let converter := {| ignore_patterns := split_patterns exclude |} in
  written (trace (main env directory output exclude))
  = rendered_doc converter env directory output
  /\ outcome (main env directory output exclude)
     = match outcome (generate_markdown converter env directory output) with
       | Ok _ => Ok 0
       | Raise _ => Ok 1
       end.
Proof.
  intros Hdir Hmk. cbv zeta. unfold main, rendered_doc. rewrite Hdir. cbn [negb].
  set (gen := generate_markdown _ env directory output).
  set (body := try_catch _ _).
  assert (Hbody : written (trace body) = written (trace gen) /\
                  outcome body = match outcome gen with
                                 | Ok _ => Ok 0 | Raise _ => Ok 1 end).
  { subst body. destruct gen as [t [[]|e]].
    - unfold print. rewrite (bind_ok_eq (t, Ok tt) _ tt eq_refl).
      rewrite bind_emit. cbn. rewrite written_app. cbn.
      rewrite app_nil_r. split; reflexivity.
    - unfold bind at 1. unfold try_catch, print.
      rewrite bind_emit. cbn. rewrite written_app. cbn.
      rewrite app_nil_r. split; reflexivity. }
  destruct Hbody as [Hw Ho].
  assert (Hmkdir : forall k : M nat,
             written (trace (bind
               (if PosixPath.nonempty (PosixPath.dirname output)
                   && negb (path_exists env (PosixPath.dirname output))
                then makedirs env (PosixPath.dirname output) else ret tt)
               (fun _ => k))) = written (trace k) /\
             outcome (bind
               (if PosixPath.nonempty (PosixPath.dirname output)
                   && negb (path_exists env (PosixPath.dirname output))
                then makedirs env (PosixPath.dirname output) else ret tt)
               (fun _ => k)) = outcome k).
  { intros k.
    destruct (PosixPath.nonempty (PosixPath.dirname output)
              && negb (path_exists env (PosixPath.dirname output))) eqn:E.
    - unfold makedirs. rewrite (Hmk eq_refl). rewrite bind_emit.
      split; reflexivity.
    - unfold bind, ret. destruct k as [t r]. split; reflexivity. }
  destruct (Hmkdir body) as [Hw2 Ho2].
  destruct (PyStr.endswith output ".md"); cbn [negb].
  - rewrite bind_ret. cbv beta zeta.
    rewrite Hw2, Ho2, Hw, Ho. split; reflexivity.
  - unfold print. rewrite bind_emit. cbv beta zeta.
    cbn [trace outcome fst snd].
    change (written (Print ?l :: ?t)) with (written t).
    rewrite Hw2, Ho2, Hw, Ho. split; reflexivity.
Qed.

End Runs.

Section ErrorPaths.
Context `{ReEngine}.
Import RepoToMarkdown Codec.

Lemma contents_app (a b : list item) :
  Doc.contents (a ++ b) = Doc.contents a ++ Doc.contents b.
Proof. apply flat_map_app. Qed.

Lemma contents_index (env : os_env) (directory : string) (l : list string) :
  Doc.contents (map (index_item env directory) l) = [].
Proof. induction l as [|x l IH]; [reflexivity | exact IH]. Qed.

Lemma contents_blocks (env : os_env) (directory : string) (l : list string) :
  Doc.contents (flat_map (block_items env directory) l)
  = map (content_value env) l.
Proof.
  induction l as [|x l IH]; [reflexivity|].
  cbn [flat_map map]. rewrite contents_app, IH.
  unfold block_items, fence_body.
  destruct (ends_with_newline (content_value env x)); reflexivity.
Qed.

Lemma document_contents (env : os_env) (directory : string) (l : list string) :
  Doc.contents (document_items env directory l) = map (content_value env) l.
Proof.
  unfold document_items.
  rewrite !contents_app, contents_index, contents_blocks. reflexivity.
Qed.

(** C7.  A file that cannot be read does not stop the run: once the root
    is a directory, the scan has returned [files] and the output file
    opens, [main] returns 0, every file of [files] has its block, and the
    content of each block is what [get_file_content] returns for the
    file, which is always a value: the read-error text when reading the
    file fails, the could-not-decode text when no encoding decodes it. *)
Theorem unreadable_file_is_a_placeholder (env : os_env)
    (directory output : string) (exclude : option (list string))
    (files : list string) :
  isdir env directory = true ->
  (PosixPath.nonempty (PosixPath.dirname output)
   && negb (path_exists env (PosixPath.dirname output)) = true ->
   makedirs_error env (PosixPath.dirname output) = None) ->
  scan_directory {| ignore_patterns := split_patterns exclude |}
    env directory = Ok files ->
  open_write_error env output = None ->
  let run := main env directory output exclude in
  exit_status (outcome run) = 0
  /\ Doc.heading_paths (written (trace run))
     = map (fun p => PosixPath.relpath (cwd env) p directory) files
  /\ Doc.contents (written (trace run)) = map (content_value env) files
  /\ (forall p, outcome (get_file_content env p) = Ok (content_value env p))
  /\ (forall p msg, read_file env p = ReadFails msg ->
        content_value env p = read_error_placeholder msg)
  /\ (forall p, load env p encodings = Undecodable ->
        content_value env p = undecodable_placeholder).
Proof.
  intros Hdir Hmk Hscan Hopen. cbv zeta.
  destruct (main_valid_root env directory output exclude Hdir Hmk)
    as [Hw Ho].
  rewrite Hw, Ho, generate_markdown_outcome, Hscan, Hopen.
  assert (Hfiles : rendered_files {| ignore_patterns := split_patterns exclude |}
                     env directory output = files).
  { unfold rendered_files. rewrite Hscan, Hopen. reflexivity. }
  split; [destruct files; reflexivity|].
  split.
  { rewrite generate_markdown_written, Hfiles.
    destruct files as [|f files']; [reflexivity|].
    apply document_heading_paths. }
  split.
  { rewrite generate_markdown_written, Hfiles.
    destruct files as [|f files']; [reflexivity|].
    apply document_contents. }
  split; [intros p; apply (proj1 (get_file_content_ok env p))|].
  split.
  - intros p msg Hread. unfold content_value, encodings. cbn [load].
    rewrite Hread. reflexivity.
  - intros p Hload. unfold content_value. rewrite Hload. reflexivity.
Qed.

(** C8.  When the root is not an existing directory, [main] prints the
    error that names it and returns 1, and that print is all the run
    does: no directory is walked or made and no file is opened or
    written. *)
Theorem invalid_root_aborts (env : os_env) (directory output : string)
    (exclude : option (list string)) :
  isdir env directory = false ->
  main env directory output exclude
  = ([Print (lit "Erro: Diretório '" ++ str directory
             ++ lit "' não encontrado!")], Ok 1)
  /\ exit_status (outcome (main env directory output exclude)) = 1
  /\ written (trace (main env directory output exclude)) = [].
Proof.
  intros Hdir. unfold main. rewrite Hdir. cbn [negb].
  unfold print. rewrite bind_emit. repeat split; reflexivity.
Qed.

(** C9.  When the scan returns no file, [generate_markdown] prints the
    line that says so after the scan and returns: the output file is
    neither opened nor written. *)
Theorem no_files_no_output (self : t) (env : os_env)
    (directory output_file : string) :
  scan_directory self env directory = Ok [] ->
  generate_markdown self env directory output_file
  = ([Print (lit "Escaneando diretório: " ++ str directory);
      Walk directory;
      Print (lit "Nenhum arquivo de código encontrado!")], Ok tt)
  /\ (forall p, ~ In (OpenW p)
                  (trace (generate_markdown self env directory output_file)))
  /\ written (trace (generate_markdown self env directory output_file)) = [].
Proof.
  intros Hscan.
  assert (E : generate_markdown self env directory output_file
              = ([Print (lit "Escaneando diretório: " ++ str directory);
                  Walk directory;
                  Print (lit "Nenhum arquivo de código encontrado!")], Ok tt)).
  { unfold generate_markdown, print, lift. rewrite Hscan.
    rewrite !bind_emit. reflexivity. }
  rewrite E. split; [reflexivity|]. split; [|reflexivity].
  intros p [Hin|[Hin|[Hin|[]]]]; discriminate.
Qed.

(** C10.  [latin-1] decodes every byte sequence, so the loop of
    [get_file_content] never runs out of encodings: it returns the text
    decoded as [utf-8] or as [latin-1], or ends on a read failure, and
    never reaches the could-not-decode return. *)
Theorem loader_never_exhausts_encodings (env : os_env) (file_path : string) :
  (forall bs, decode LATIN1 bs = Some bs)
  /\ match load env file_path encodings with
     | Decoded e content =>
         (e = UTF8 \/ e = LATIN1)
         /\ outcome (get_file_content env file_path) = Ok content
     | ReadFailed msg =>
         read_file env file_path = ReadFails msg
         /\ outcome (get_file_content env file_path)
            = Ok (read_error_placeholder msg)
     | Undecodable => False
     end.
Proof.
  split; [reflexivity|].
  unfold get_file_content, encodings. cbn [load].
  destruct (read_file env file_path) as [bs|msg]; [|split; reflexivity].
  destruct (decode UTF8 bs); [split; [left|]; reflexivity|].
  cbn [decode latin1_decode]. split; [right|]; reflexivity.
Qed.

End ErrorPaths.

(** ** The scan under more patterns, and on the sample file system *)

(** C4.  Exclusion only removes: when every pattern of [patterns] is
    among [more], whatever the order and the number of new patterns, the
    files the scan returns under [more] are among those it returns under
    [patterns]. *)
Theorem exclusion_is_monotonic `{ReEngine} (env : os_env)
    (directory : string) (patterns more : list string)
    (files files' : list string) :
  incl patterns more ->
  RepoToMarkdown.scan_directory
    {| RepoToMarkdown.ignore_patterns := patterns |} env directory
  = Ok files ->
  RepoToMarkdown.scan_directory
    {| RepoToMarkdown.ignore_patterns := more |} env directory
  = Ok files' ->
  incl files' files.
Proof.
  intros Hincl Hscan Hscan'.
  exact (scan_directory_incl
           {| RepoToMarkdown.ignore_patterns := patterns |}
           {| RepoToMarkdown.ignore_patterns := more |}
           Hincl env directory files files' Hscan Hscan').
Qed.

Lemma exclusion_is_monotonic_witness :
  incl [] ["test_.*\.py"]
  /\ RepoToMarkdown.scan_directory Sample.no_patterns Sample.env "proj"
     = Ok ["proj/foo.py"; "proj/test_foo.py"; "proj/tmp/a.py"]
  /\ RepoToMarkdown.scan_directory Sample.no_tests Sample.env "proj"
     = Ok ["proj/foo.py"; "proj/tmp/a.py"]
  /\ incl ["proj/foo.py"; "proj/tmp/a.py"]
       ["proj/foo.py"; "proj/test_foo.py"; "proj/tmp/a.py"].
Proof.
  assert (Hincl : incl [] ["test_.*\.py"]) by (intros x []).
  assert (Hscan : RepoToMarkdown.scan_directory Sample.no_patterns Sample.env
                    "proj"
                  = Ok ["proj/foo.py"; "proj/test_foo.py"; "proj/tmp/a.py"])
    by reflexivity.
  assert (Hscan' : RepoToMarkdown.scan_directory Sample.no_tests Sample.env
                     "proj"
                   = Ok ["proj/foo.py"; "proj/tmp/a.py"])
    by reflexivity.
  repeat split; try assumption.
  exact (exclusion_is_monotonic Sample.env "proj" [] ["test_.*\.py"]
           _ _ Hincl Hscan Hscan').
Defined.

(** C2.  On the sample directory [build/app] with the default patterns
    alone: the relative paths [src] and [src/main.py] match no pattern
    and [main.py] is a code file, yet the scan does not return it; the
    directory [src] is pruned on the joined path [build/app/src], which
    [build/.*] matches. *)
Theorem pruning_tests_the_joined_path :
  RepoToMarkdown.should_ignore Sample.no_patterns
    (PosixPath.relpath "/home/u" "build/app/src" "build/app") = Ok false
  /\ RepoToMarkdown.should_ignore Sample.no_patterns
       (PosixPath.relpath "/home/u" "build/app/src/main.py" "build/app")
     = Ok false
  /\ RepoToMarkdown.is_code_file "build/app/src/main.py" = true
  /\ RepoToMarkdown.should_ignore Sample.no_patterns
       (PosixPath.join "build/app" "src") = Ok true
  /\ RepoToMarkdown.scan_directory Sample.no_patterns Sample.env "build/app"
     = Ok ["build/app/setup.py"].
Proof. repeat split; vm_compute; reflexivity. Qed.

(** C3.  On the sample directory [proj] with the user pattern [^tmp$]:
    the relative path [tmp] of the directory matches the pattern, the
    joined path [proj/tmp] does not, and the scan returns the file
    [proj/tmp/a.py] under it. *)
Theorem file_under_matching_directory_is_returned :
  PosixPath.relpath "/home/u" "proj/tmp" "proj" = "tmp"
  /\ RepoToMarkdown.should_ignore Sample.only_tmp "tmp" = Ok true
  /\ RepoToMarkdown.should_ignore Sample.only_tmp
       (PosixPath.join "proj" "tmp") = Ok false
  /\ RepoToMarkdown.scan_directory Sample.only_tmp Sample.env "proj"
     = Ok ["proj/foo.py"; "proj/test_foo.py"; "proj/tmp/a.py"].
Proof. repeat split; vm_compute; reflexivity. Qed.

(** ** The error paths on the sample file system *)

Lemma unreadable_file_is_a_placeholder_witness :
  let run := main Sample.env "proj" "out/all.md" None in
  exit_status (outcome run) = 0
  /\ Doc.heading_paths (written (trace run))
     = ["foo.py"; "test_foo.py"; "tmp/a.py"]
  /\ Doc.contents (written (trace run))
     = [Codec.str "print(1)";
        RepoToMarkdown.read_error_placeholder
          (Codec.lit "[Errno 13] Permission denied");
        [35; 32; 255; 10]%N].
Proof.
  assert (Hdir : isdir Sample.env "proj" = true) by reflexivity.
  assert (Hmk : PosixPath.nonempty (PosixPath.dirname "out/all.md")
                && negb (path_exists Sample.env (PosixPath.dirname "out/all.md"))
                = true ->
                makedirs_error Sample.env (PosixPath.dirname "out/all.md") = None)
    by (intros _; reflexivity).
  assert (Hscan : RepoToMarkdown.scan_directory
                    {| RepoToMarkdown.ignore_patterns := split_patterns None |}
                    Sample.env "proj"
                  = Ok ["proj/foo.py"; "proj/test_foo.py"; "proj/tmp/a.py"])
    by reflexivity.
  assert (Hopen : open_write_error Sample.env "out/all.md" = None)
    by reflexivity.
  destruct (unreadable_file_is_a_placeholder Sample.env "proj" "out/all.md"
              None _ Hdir Hmk Hscan Hopen) as [Hexit [Hheads [Hcont _]]].
  cbv zeta. split; [exact Hexit|]. split; [exact Hheads|]. exact Hcont.
Defined.

Lemma invalid_root_aborts_witness :
  isdir Sample.env "missing" = false
  /\ exit_status (outcome (main Sample.env "missing" "out/all.md" None)) = 1
  /\ written (trace (main Sample.env "missing" "out/all.md" None)) = [].
Proof.
  assert (Hdir : isdir Sample.env "missing" = false) by reflexivity.
  split; [exact Hdir|].
  exact (proj2 (invalid_root_aborts Sample.env "missing" "out/all.md" None Hdir)).
Defined.

Lemma no_files_no_output_witness :
  RepoToMarkdown.scan_directory Sample.no_patterns Sample.env "notes" = Ok []
  /\ written (trace (RepoToMarkdown.generate_markdown Sample.no_patterns
                       Sample.env "notes" "out/all.md")) = [].
Proof.
  assert (Hscan : RepoToMarkdown.scan_directory Sample.no_patterns Sample.env
                    "notes" = Ok []) by reflexivity.
  split; [exact Hscan|].
  exact (proj2 (proj2 (no_files_no_output Sample.no_patterns Sample.env
                         "notes" "out/all.md" Hscan))).
Defined.

(** * Further properties *)

(** ** More on the scan *)

Lemma bindR_ext {A B} (r : result A) (f g : A -> result B) :
  (forall a, r = Ok a -> f a = g a) -> bindR r f = bindR r g.
Proof. destruct r as [a|e]; simpl; intros Hfg; [apply Hfg|]; reflexivity. Qed.

Section ScanFacts.
Context `{ReEngine}.
Import RepoToMarkdown.

Lemma any_match_app (ps qs : list string) (s : string) :
  any_match (ps ++ qs) s
  = match any_match ps s with
    | Ok true => Ok true
    | Ok false => any_match qs s
    | Raise e => Raise e
    end.
Proof.
  induction ps as [|p ps IH]; simpl; [reflexivity|].
  destruct (re_search p s) as [[|]|e]; simpl; [reflexivity | exact IH | reflexivity].
Qed.

(** X1.  A path that one of the built-in patterns matches is ignored
    whatever the user's patterns are, even when one of them does not
    compile: the built-in patterns are tried first. *)
Theorem default_patterns_cannot_be_overridden (self : t) (s : string) :
  any_match default_ignore s = Ok true -> should_ignore self s = Ok true.
Proof.
  intros Hd. unfold should_ignore. cbv zeta. rewrite any_match_app, Hd.
  reflexivity.
Qed.

Lemma any_match_raise (ps : list string) (s : string) (e : exn) :
  any_match ps s = Raise e ->
  exists p msg, In p ps /\ re_compile p = inl msg /\ e = ReError msg.
Proof.
  induction ps as [|p ps IH]; simpl; [discriminate|].
  unfold re_search at 1.
  destruct (re_compile p) as [msg|c] eqn:Ec; simpl.
  - intros He. inversion He. exists p, msg. auto.
  - destruct (re_exec c s); [discriminate|].
    intros He. destruct (IH He) as [q [msg [Hq [Hc Hm]]]].
    exists q, msg. auto.
Qed.

Lemma any_match_false_compiles (ps : list string) (s : string) :
  any_match ps s = Ok false ->
  Forall (fun p => exists c, re_compile p = inr c /\ re_exec c s = false) ps.
Proof.
  induction ps as [|p ps IH]; simpl; [constructor|].
  unfold re_search at 1.
  destruct (re_compile p) as [msg|c] eqn:Ec; simpl; [discriminate|].
  destruct (re_exec c s) eqn:Ex; [discriminate|].
  intros Hm. constructor; [exists c; auto | apply IH; exact Hm].
Qed.

(** X2.  The three outcomes of [should_ignore]: it answers true only
    when some pattern compiles and matches the path, false only when
    every pattern compiles and none matches, and it raises only the
    compile error of one of the patterns. *)
Theorem should_ignore_answers (self : t) (s : string) :
  match should_ignore self s with
  | Ok true =>
      exists p c, In p (default_ignore ++ ignore_patterns self)
                  /\ re_compile p = inr c /\ re_exec c s = true
  | Ok false =>
      Forall (fun p => exists c, re_compile p = inr c /\ re_exec c s = false)
        (default_ignore ++ ignore_patterns self)
  | Raise e =>
      exists p msg, In p (default_ignore ++ ignore_patterns self)
                    /\ re_compile p = inl msg /\ e = ReError msg
  end.
Proof.
  unfold should_ignore. cbv zeta.
  destruct (any_match _ s) as [[|]|e] eqn:E.
  - destruct (any_match_true _ _ E) as [p [Hp Hs]].
    unfold re_search in Hs. destruct (re_compile p) as [msg|c] eqn:Ec;
      [discriminate|].
    inversion Hs. exists p, c. auto.
  - exact (any_match_false_compiles _ s E).
  - exact (any_match_raise _ s e E).
Qed.

End ScanFacts.

Section ScanResult.
Context `{ReEngine}.
Import RepoToMarkdown.

Lemma scan_files_eligible (self : t) (env : os_env) (directory root : string)
    (fs found : list string) :
  scan_files self env directory root fs = Ok found ->
  forall p, In p found ->
    eligible self env directory p
    /\ exists f, In f fs /\ p = PosixPath.join root f.
Proof.
  revert found. induction fs as [|f fs IH]; simpl; intros found Hs p Hp.
  - inversion Hs; subst. contradiction.
  - apply bindR_ok in Hs. destruct Hs as [ig [Hig Hs]].
    apply bindR_ok in Hs. destruct Hs as [rest [Hrest Hs]].
    inversion Hs; subst; clear Hs.
    destruct ig; cbn [negb andb] in Hp.
    + destruct (IH _ Hrest p Hp) as [He [g [Hg Hj]]].
      split; [exact He | exists g; auto].
    + destruct (is_code_file (PosixPath.join root f)) eqn:Ec.
      * destruct Hp as [<-|Hp].
        -- split; [split; assumption | exists f; auto].
        -- destruct (IH _ Hrest p Hp) as [He [g [Hg Hj]]].
           split; [exact He | exists g; auto].
      * destruct (IH _ Hrest p Hp) as [He [g [Hg Hj]]].
        split; [exact He | exists g; auto].
Qed.

Lemma walk_dirs_eligible (self : t) (env : os_env) (directory : string)
    (visit : string -> entry -> result (list string))
    (root : string) (dirs : list string) (cs : list entry) :
  Forall (fun c => forall r l, visit r c = Ok l ->
            forall p, In p l -> eligible self env directory p) cs ->
  forall below, walk_dirs visit root dirs cs = Ok below ->
    forall p, In p below -> eligible self env directory p.
Proof.
  intros Hcs. induction Hcs as [|c cs Hc _ IH]; simpl; intros below Hb p Hp.
  - inversion Hb; subst. contradiction.
  - destruct c as [f | d sub]; [eauto|].
    destruct (existsb (String.eqb d) dirs); [|eauto].
    apply bindR_ok in Hb. destruct Hb as [a [Ha Hb]].
    apply bindR_ok in Hb. destruct Hb as [b [Hb' Hb]].
    inversion Hb; subst. apply in_app_or in Hp. destruct Hp; eauto.
Qed.

Lemma walk_eligible (self : t) (env : os_env) (directory : string)
    (top : entry) :
  forall root l, walk self env directory root top = Ok l ->
    forall p, In p l -> eligible self env directory p.
Proof.
  induction top as [name | name cs IH] using entry_tree_ind;
    intros root l Hw p Hp.
  - simpl in Hw. inversion Hw; subst. contradiction.
  - simpl in Hw.
    apply bindR_ok in Hw. destruct Hw as [dirs [Hdirs Hw]].
    apply bindR_ok in Hw. destruct Hw as [here [Hhere Hw]].
    apply bindR_ok in Hw. destruct Hw as [below [Hbelow Hw]].
    inversion Hw; subst. apply in_app_or in Hp. destruct Hp as [Hp|Hp].
    + exact (proj1 (scan_files_eligible _ _ _ _ _ _ Hhere p Hp)).
    + exact (walk_dirs_eligible _ _ _ _ _ _ _ IH _ Hbelow p Hp).
Qed.

(** X3.  Every path the scan returns is a code file by its extension,
    and no pattern matches its path relative to the root. *)
Theorem scan_returns_only_eligible_files (self : t) (env : os_env)
    (directory : string) (files : list string) (p : string) :
  scan_directory self env directory = Ok files ->
  In p files ->
  is_code_file p = true
  /\ should_ignore self (PosixPath.relpath (cwd env) p directory) = Ok false.
Proof.
  unfold scan_directory. intros Hs Hp.
  apply bindR_ok in Hs. destruct Hs as [found [Hfound Hs]].
  inversion Hs; subst; clear Hs.
  apply (proj1 (sorted_in _ _)) in Hp.
  destruct (listing env directory) as [cs|].
  - exact (walk_eligible _ _ _ _ _ _ Hfound p Hp).
  - inversion Hfound; subst. contradiction.
Qed.

Lemma scan_files_complete (self : t) (env : os_env) (directory root : string)
    (fs found : list string) (f : string) :
  scan_files self env directory root fs = Ok found ->
  In f fs ->
  eligible self env directory (PosixPath.join root f) ->
  In (PosixPath.join root f) found.
Proof.
  revert found. induction fs as [|g fs IH]; simpl; intros found Hs Hf [Hc Hi].
  - contradiction.
  - apply bindR_ok in Hs. destruct Hs as [ig [Hig Hs]].
    apply bindR_ok in Hs. destruct Hs as [rest [Hrest Hs]].
    inversion Hs; subst; clear Hs.
    destruct Hf as [->|Hf].
    + rewrite Hi in Hig. inversion Hig; subst. rewrite Hc. left. reflexivity.
    + pose proof (IH _ Hrest Hf (conj Hc Hi)) as Hin.
      destruct (negb ig && _); [right|]; exact Hin.
Qed.

Lemma in_file_names (f : string) (cs : list entry) :
  In (File f) cs -> In f (file_names cs).
Proof.
  intros Hin. unfold file_names. apply in_flat_map.
  exists (File f). split; [exact Hin | left; reflexivity].
Qed.

(** X4.  A file directly in the root directory is returned by every
    scan that returns, as soon as its extension is in the table and no
    pattern matches its relative path. *)
Theorem top_level_eligible_file_is_returned (self : t) (env : os_env)
    (directory : string) (cs : list entry) (files : list string)
    (f : string) :
  listing env directory = Some cs ->
  In (File f) cs ->
  scan_directory self env directory = Ok files ->
  is_code_file (PosixPath.join directory f) = true ->
  should_ignore self
    (PosixPath.relpath (cwd env) (PosixPath.join directory f) directory)
  = Ok false ->
  In (PosixPath.join directory f) files.
Proof.
  intros Hl Hf Hs Hc Hi. unfold scan_directory in Hs. rewrite Hl in Hs.
  apply bindR_ok in Hs. destruct Hs as [found [Hfound Hs]].
  inversion Hs; subst; clear Hs.
  apply (proj2 (sorted_in _ _)).
  simpl in Hfound.
  apply bindR_ok in Hfound. destruct Hfound as [dirs [Hdirs Hw]].
  apply bindR_ok in Hw. destruct Hw as [here [Hhere Hw]].
  apply bindR_ok in Hw. destruct Hw as [below [Hbelow Hw]].
  inversion Hw; subst. apply in_or_app. left.
  eapply scan_files_complete; [exact Hhere | apply in_file_names, Hf |].
  split; assumption.
Qed.

(** *** A pruned directory *)

Lemma prune_dirs_kept (self : t) (root : string) (ds kept : list string) :
  prune_dirs self root ds = Ok kept ->
  forall d, In d kept ->
    In d ds /\ should_ignore self (PosixPath.join root d) = Ok false.
Proof.
  revert kept. induction ds as [|x ds IH]; simpl; intros kept Hk d Hd.
  - inversion Hk; subst. contradiction.
  - apply bindR_ok in Hk. destruct Hk as [ig [Hig Hk]].
    apply bindR_ok in Hk. destruct Hk as [rest [Hrest Hk]].
    inversion Hk; subst; clear Hk.
    destruct ig.
    + destruct (IH _ Hrest d Hd). auto.
    + destruct Hd as [<-|Hd]; [auto|].
      destruct (IH _ Hrest d Hd). auto.
Qed.

Lemma prune_dirs_drop (self : t) (root d : string) (before after : list string) :
  should_ignore self (PosixPath.join root d) = Ok true ->
  prune_dirs self root (before ++ d :: after)
  = prune_dirs self root (before ++ after).
Proof.
  intros Hig. induction before as [|x before IH]; simpl.
  - rewrite Hig. simpl.
    destruct (prune_dirs self root after); reflexivity.
  - rewrite IH. reflexivity.
Qed.

Lemma walk_dirs_drop (visit : string -> entry -> result (list string))
    (root : string) (dirs : list string) (d : string) (sub : list entry)
    (before after : list entry) :
  existsb (String.eqb d) dirs = false ->
  walk_dirs visit root dirs (before ++ Dir d sub :: after)
  = walk_dirs visit root dirs (before ++ after).
Proof.
  intros Hd. induction before as [|c before IH]; simpl.
  - rewrite Hd. reflexivity.
  - destruct c as [f | d' sub']; [exact IH|].
    fold (walk_dirs visit root dirs). rewrite IH. reflexivity.
Qed.

Lemma dir_names_app (a b : list entry) :
  dir_names (a ++ b) = dir_names a ++ dir_names b.
Proof. apply flat_map_app. Qed.

Lemma file_names_app (a b : list entry) :
  file_names (a ++ b) = file_names a ++ file_names b.
Proof. apply flat_map_app. Qed.

(** X5.  A directory whose joined path a pattern matches is never
    entered: the walk of its parent gives the same result, value or
    exception, as if the directory were not there, whatever it holds. *)
Theorem pruned_directory_is_never_entered (self : t) (env : os_env)
    (directory root name d : string) (sub before after : list entry) :
  should_ignore self (PosixPath.join root d) = Ok true ->
  walk self env directory root (Dir name (before ++ Dir d sub :: after))
  = walk self env directory root (Dir name (before ++ after)).
Proof.
  intros Hig. cbn [walk].
  rewrite !dir_names_app, !file_names_app. cbn [dir_names file_names flat_map app].
  fold (dir_names after). fold (file_names after).
  rewrite (prune_dirs_drop self root d _ _ Hig).
  apply bindR_ext. intros dirs Hdirs.
  apply bindR_ext. intros here _.
  rewrite walk_dirs_drop; [reflexivity|].
  destruct (existsb (String.eqb d) dirs) eqn:E; [|reflexivity].
  apply existsb_exists in E. destruct E as [x [Hx Hxd]].
  apply String.eqb_eq in Hxd. subst x.
  destruct (prune_dirs_kept _ _ _ _ Hdirs d Hx) as [_ Hno].
  congruence.
Qed.

End ScanResult.

(** ** The order of the scan result *)

Lemma ascii_compare_lt_trans (a b c : ascii) :
  Ascii.compare a b = Lt -> Ascii.compare b c = Lt -> Ascii.compare a c = Lt.
Proof.
  unfold Ascii.compare. rewrite !N.compare_lt_iff. lia.
Qed.

Lemma string_compare_lt_trans (a b c : string) :
  String.compare a b = Lt -> String.compare b c = Lt ->
  String.compare a c = Lt.
Proof.
  revert b c. induction a as [|x a IH]; intros [|y b] [|z c]; simpl;
    try discriminate; try reflexivity.
  destruct (Ascii.compare x y) eqn:Exy; try discriminate.
  - apply Ascii.compare_eq_iff in Exy. subst y.
    destruct (Ascii.compare x z) eqn:Exz; try discriminate; auto.
    apply IH.
  - intros _. destruct (Ascii.compare y z) eqn:Eyz; try discriminate.
    + apply Ascii.compare_eq_iff in Eyz. subst z. rewrite Exy. reflexivity.
    + intros _. rewrite (ascii_compare_lt_trans _ _ _ Exy Eyz). reflexivity.
Qed.

Lemma str_le_cases (a b : string) :
  str_le a b <-> a = b \/ String.compare a b = Lt.
Proof.
  unfold str_le, String.leb. split.
  - destruct (String.compare a b) eqn:E; try discriminate; intros _.
    + left. apply String.compare_eq_iff. exact E.
    + right. reflexivity.
  - intros [->|E].
    + destruct (String.compare b b) eqn:E; try reflexivity.
      assert (Hb : String.compare b b = Eq)
        by (clear; induction b as [|c b IH]; simpl; [reflexivity|];
            unfold Ascii.compare; rewrite N.compare_refl; exact IH).
      congruence.
    + rewrite E. reflexivity.
Qed.

Lemma str_le_trans (a b c : string) : str_le a b -> str_le b c -> str_le a c.
Proof.
  rewrite !str_le_cases. intros [->|Hab] [->|Hbc]; auto.
  right. eapply string_compare_lt_trans; eassumption.
Qed.

Lemma str_le_antisym (a b : string) : str_le a b -> str_le b a -> a = b.
Proof.
  rewrite !str_le_cases. intros [->|Hab] [E|Hba]; auto.
  rewrite String.compare_antisym, Hab in Hba. discriminate.
Qed.

Lemma insert_strongly_sorted (x : string) (l : list string) :
  StronglySorted str_le l -> StronglySorted str_le (PyStr.insert x l).
Proof.
  induction 1 as [|y l Hl IH Hy]; simpl.
  - constructor; constructor.
  - destruct (String.leb x y) eqn:E.
    + constructor; [constructor; assumption|].
      constructor; [exact E|].
      apply Forall_forall. intros z Hz.
      apply str_le_trans with y; [exact E|].
      rewrite Forall_forall in Hy. apply Hy. exact Hz.
    + constructor; [exact IH|].
      apply Forall_forall. intros z Hz.
      apply insert_in in Hz. destruct Hz as [->|Hz].
      * destruct (String.leb_total x y) as [Hxy|Hyx]; [congruence | exact Hyx].
      * rewrite Forall_forall in Hy. apply Hy. exact Hz.
Qed.

Lemma sorted_strongly_sorted (l : list string) :
  StronglySorted str_le (PyStr.sorted l).
Proof.
  induction l as [|x l IH]; simpl; [constructor|].
  apply insert_strongly_sorted. exact IH.
Qed.

(** Two sorted lists with the same elements are the same list. *)
Lemma strongly_sorted_unique (l l' : list string) :
  StronglySorted str_le l -> StronglySorted str_le l' ->
  Permutation l l' -> l = l'.
Proof.
  intros Hl. revert l'. induction Hl as [|x l Hl IH Hx]; intros l' Hl' Hp.
  - apply Permutation_nil in Hp. subst. reflexivity.
  - destruct Hl' as [|y l' Hl' Hy].
    + apply Permutation_sym, Permutation_nil in Hp. discriminate.
    + assert (Exy : x = y).
      { apply str_le_antisym.
        - assert (Hin : In y (x :: l))
            by (eapply Permutation_in; [apply Permutation_sym, Hp | left; reflexivity]).
          destruct Hin as [->|Hin].
          + apply str_le_cases. left. reflexivity.
          + rewrite Forall_forall in Hx. apply Hx. exact Hin.
        - assert (Hin : In x (y :: l'))
            by (eapply Permutation_in; [exact Hp | left; reflexivity]).
          destruct Hin as [->|Hin].
          + apply str_le_cases. left. reflexivity.
          + rewrite Forall_forall in Hy. apply Hy. exact Hin. }
      subst y. f_equal. apply IH; [exact Hl'|].
      eapply Permutation_cons_inv. exact Hp.
Qed.

Lemma sorted_of_permutation (l l' : list string) :
  Permutation l l' -> PyStr.sorted l = PyStr.sorted l'.
Proof.
  intros Hp. apply strongly_sorted_unique; try apply sorted_strongly_sorted.
  eapply Permutation_trans; [apply sorted_perm|].
  eapply Permutation_trans; [exact Hp | apply Permutation_sym, sorted_perm].
Qed.

Section Order.
Context `{ReEngine}.
Import RepoToMarkdown.

(** X6.  The list a scan returns is in ascending order of the paths:
    each path is below or equal to every path after it. *)
Theorem scan_result_is_sorted (self : t) (env : os_env) (directory : string)
    (files : list string) :
  scan_directory self env directory = Ok files ->
  StronglySorted (fun a b => String.leb a b = true) files.
Proof.
  unfold scan_directory. intros Hs.
  apply bindR_ok in Hs. destruct Hs as [found [_ Hs]].
  inversion Hs; subst. apply sorted_strongly_sorted.
Qed.

End Order.

(** ** The scan facts on the sample file system *)

Lemma default_patterns_cannot_be_overridden_witness :
  RepoToMarkdown.any_match RepoToMarkdown.default_ignore ".git/config" = Ok true
  /\ RepoToMarkdown.should_ignore broken_pattern ".git/config" = Ok true.
Proof.
  assert (Hd : RepoToMarkdown.any_match RepoToMarkdown.default_ignore
                 ".git/config" = Ok true) by reflexivity.
  split; [exact Hd|].
  exact (default_patterns_cannot_be_overridden broken_pattern ".git/config" Hd).
Defined.

Lemma scan_returns_only_eligible_files_witness :
  RepoToMarkdown.scan_directory Sample.no_tests Sample.env "proj"
  = Ok ["proj/foo.py"; "proj/tmp/a.py"]
  /\ In "proj/tmp/a.py" ["proj/foo.py"; "proj/tmp/a.py"]
  /\ RepoToMarkdown.is_code_file "proj/tmp/a.py" = true
  /\ RepoToMarkdown.should_ignore Sample.no_tests
       (PosixPath.relpath (cwd Sample.env) "proj/tmp/a.py" "proj") = Ok false.
Proof.
  assert (Hs : RepoToMarkdown.scan_directory Sample.no_tests Sample.env "proj"
               = Ok ["proj/foo.py"; "proj/tmp/a.py"]) by reflexivity.
  assert (Hin : In "proj/tmp/a.py" ["proj/foo.py"; "proj/tmp/a.py"])
    by (right; left; reflexivity).
  split; [exact Hs|]. split; [exact Hin|].
  exact (scan_returns_only_eligible_files Sample.no_tests Sample.env "proj"
           _ "proj/tmp/a.py" Hs Hin).
Defined.

Lemma top_level_eligible_file_is_returned_witness :
  In (PosixPath.join "proj" "foo.py") ["proj/foo.py"; "proj/tmp/a.py"].
Proof.
  apply (top_level_eligible_file_is_returned Sample.no_tests Sample.env "proj"
           [File "foo.py"; File "test_foo.py"; File "b.txt";
            Dir "tmp" [File "a.py"]]
           ["proj/foo.py"; "proj/tmp/a.py"] "foo.py").
  - reflexivity.
  - left. reflexivity.
  - reflexivity.
  - reflexivity.
  - reflexivity.
Defined.

Lemma pruned_directory_is_never_entered_witness :
  RepoToMarkdown.should_ignore Sample.no_patterns
    (PosixPath.join "build/app" "src") = Ok true
  /\ RepoToMarkdown.walk Sample.no_patterns Sample.env "build/app" "build/app"
       (Dir "app" ([File "setup.py"] ++ Dir "src" [File "main.py"] :: []))
     = RepoToMarkdown.walk Sample.no_patterns Sample.env "build/app" "build/app"
         (Dir "app" ([File "setup.py"] ++ [])).
Proof.
  assert (Hig : RepoToMarkdown.should_ignore Sample.no_patterns
                  (PosixPath.join "build/app" "src") = Ok true) by reflexivity.
  split; [exact Hig|].
  exact (pruned_directory_is_never_entered Sample.no_patterns Sample.env
           "build/app" "build/app" "app" "src" [File "main.py"]
           [File "setup.py"] [] Hig).
Defined.

Lemma scan_result_is_sorted_witness :
  RepoToMarkdown.scan_directory Sample.no_patterns Sample.env "proj"
  = Ok ["proj/foo.py"; "proj/test_foo.py"; "proj/tmp/a.py"]
  /\ StronglySorted (fun a b => String.leb a b = true)
       ["proj/foo.py"; "proj/test_foo.py"; "proj/tmp/a.py"].
Proof.
  assert (Hs : RepoToMarkdown.scan_directory Sample.no_patterns Sample.env
                 "proj"
               = Ok ["proj/foo.py"; "proj/test_foo.py"; "proj/tmp/a.py"])
    by reflexivity.
  split; [exact Hs|].
  exact (scan_result_is_sorted Sample.no_patterns Sample.env "proj" _ Hs).
Defined.

(** ** Labels, anchors and patterns *)

Lemma dict_get_in (d : list (string * string)) (k v : string) :
  RepoToMarkdown.dict_get d k = Some v -> In (k, v) d.
Proof.
  unfold RepoToMarkdown.dict_get.
  induction d as [|[k' v'] d IH]; simpl; [discriminate|].
  destruct (String.eqb_spec k' k) as [->|Hne]; simpl.
  - intros E. inversion E. left. reflexivity.
  - intros E. right. apply IH. exact E.
Qed.

Lemma no_label_is_text :
  Forall (fun kv => snd kv <> "text") RepoToMarkdown.code_extensions.
Proof.
  apply Forall_forall. intros kv Hin Heq.
  pose proof (proj1 (forallb_forall
    (fun kv => negb (String.eqb (snd kv) "text"))
    RepoToMarkdown.code_extensions) eq_refl kv Hin) as Hb.
  cbv beta in Hb. rewrite Heq in Hb. discriminate.
Qed.

Lemma code_file_iff_label (p : string) :
  RepoToMarkdown.is_code_file p
  = negb (String.eqb (RepoToMarkdown.get_language_from_extension p) "text").
Proof.
  unfold RepoToMarkdown.is_code_file, RepoToMarkdown.get_language_from_extension.
  destruct (RepoToMarkdown.dict_get _ _) as [l|] eqn:E; [|reflexivity].
  apply dict_get_in in E.
  pose proof (proj1 (Forall_forall _ _) no_label_is_text _ E) as Hne.
  simpl in Hne. destruct (String.eqb_spec l "text"); [contradiction | reflexivity].
Qed.

Section FallbackLabel.
Context `{ReEngine}.
Import RepoToMarkdown.

Lemma rendered_files_are_code (self : t) (env : os_env)
    (directory output_file : string) :
  Forall (fun p => is_code_file p = true)
    (rendered_files self env directory output_file).
Proof.
  unfold rendered_files.
  destruct (scan_directory self env directory) as [files|e] eqn:Es;
    [|constructor].
  destruct (open_write_error env output_file); [constructor|].
  apply Forall_forall. intros p Hp.
  unfold scan_directory in Es.
  apply bindR_ok in Es. destruct Es as [found [Hfound Es]].
  inversion Es; subst; clear Es.
  apply (proj1 (sorted_in _ _)) in Hp.
  destruct (listing env directory) as [cs|].
  - exact (proj1 (walk_eligible _ _ _ _ _ _ Hfound p Hp)).
  - inversion Hfound; subst. contradiction.
Qed.

(** X7.  The fallback label [text] is what [get_language_from_extension]
    answers exactly for the paths that are not code files; since a scan
    returns code files only, no fence of a written document is tagged
    [text]. *)
Theorem fallback_label_only_for_other_files (self : t) (env : os_env)
    (directory output_file : string) :
  (forall p, get_language_from_extension p = "text" <-> is_code_file p = false)
  /\ Forall (fun tag => tag <> "text")
       (Doc.fence_tags (rendered_doc self env directory output_file)).
Proof.
  split.
  - intros p. rewrite code_file_iff_label.
    destruct (String.eqb_spec (get_language_from_extension p) "text");
      simpl; split; intros; congruence.
  - rewrite generate_markdown_written.
    pose proof (rendered_files_are_code self env directory output_file) as Hc.
    destruct (rendered_files self env directory output_file) as [|f files];
      [constructor|].
    unfold document_items.
    rewrite !fence_tags_app, fence_tags_index, fence_tags_blocks.
    cbn [app]. apply Forall_forall. intros tag Hin.
    apply in_map_iff in Hin. destruct Hin as [p [<- Hp]].
    rewrite Forall_forall in Hc. specialize (Hc p Hp).
    rewrite code_file_iff_label in Hc.
    destruct (String.eqb_spec (get_language_from_extension p) "text");
      [discriminate | assumption].
Qed.

End FallbackLabel.

(** *** Anchors *)

Lemma chars_app (a b : string) :
  PyStr.chars (a ++ b)%string = PyStr.chars a ++ PyStr.chars b.
Proof.
  unfold PyStr.chars. induction a as [|c a IH]; simpl; [reflexivity|].
  rewrite IH. reflexivity.
Qed.

Lemma of_chars_app (a b : list ascii) :
  PyStr.of_chars (a ++ b) = (PyStr.of_chars a ++ PyStr.of_chars b)%string.
Proof.
  unfold PyStr.of_chars. induction a as [|c a IH]; simpl; [reflexivity|].
  rewrite IH. reflexivity.
Qed.

Lemma chars_of_chars (l : list ascii) : PyStr.chars (PyStr.of_chars l) = l.
Proof. apply list_ascii_of_string_of_list_ascii. Qed.

Lemma of_chars_chars (s : string) : PyStr.of_chars (PyStr.chars s) = s.
Proof. apply string_of_list_ascii_of_string. Qed.






(** *** The patterns of [-x] *)

Lemma split_chars_no_sep (c : ascii) (l : list ascii) :
  Forall (fun w => ~ In c w) (PyStr.split_chars c l).
Proof.
  induction l as [|a l IH]; simpl.
  - constructor; [intros [] | constructor].
  - destruct (Ascii.eqb_spec a c) as [->|Hne].
    + constructor; [intros [] | exact IH].
    + destruct (PyStr.split_chars c l) as [|w ws].
      * constructor; [|constructor]. intros [E|[]]. congruence.
      * inversion IH; subst. constructor; [|assumption].
        intros [E|Hin]; [congruence | contradiction].
Qed.

Lemma split_chars_cons (c : ascii) (l : list ascii) :
  exists w ws, PyStr.split_chars c l = w :: ws.
Proof.
  destruct l as [|a l]; simpl; [eauto|].
  destruct (Ascii.eqb a c); [eauto|].
  destruct (PyStr.split_chars c l); eauto.
Qed.

Lemma concat_cons_chars (sep : string) (w : list ascii) (ws : list (list ascii))
    (a : ascii) :
  String.concat sep (map PyStr.of_chars ((a :: w) :: ws))
  = String a (String.concat sep (map PyStr.of_chars (w :: ws))).
Proof. destruct ws; reflexivity. Qed.

Lemma split_chars_join (c : ascii) (l : list ascii) :
  PyStr.chars (String.concat (String c EmptyString)
                 (map PyStr.of_chars (PyStr.split_chars c l))) = l.
Proof.
  induction l as [|a l IH]; [reflexivity|].
  cbn [PyStr.split_chars].
  destruct (split_chars_cons c l) as [w [ws E]]. rewrite E in *.
  destruct (Ascii.eqb_spec a c) as [->|Hne].
  - change (String.concat (String c "") (map PyStr.of_chars ([] :: w :: ws)))
      with (String c (String.concat (String c "")
                        (map PyStr.of_chars (w :: ws)))).
    cbn [PyStr.chars list_ascii_of_string]. f_equal. exact IH.
  - rewrite concat_cons_chars.
    cbn [PyStr.chars list_ascii_of_string]. f_equal. exact IH.
Qed.

Section Patterns.
Context `{ReEngine}.

(** X10.  The patterns of the [-x] options: none holds a pipe, joining
    the patterns of one value with pipes gives the value back, and the
    patterns of several values are those of each value, in order. *)
Theorem exclude_values_are_split_on_pipes (values : list string) :
  Forall (fun p => ~ In "|"%char (PyStr.chars p))
    (split_patterns (Some values))
  /\ (forall v, PyStr.join "|" (split_patterns (Some [v])) = v)
  /\ split_patterns (Some values)
     = flat_map (fun v => split_patterns (Some [v])) values.
Proof.
  split; [|split].
  - unfold split_patterns. apply Forall_forall. intros p Hin.
    apply in_flat_map in Hin. destruct Hin as [v [_ Hp]].
    unfold PyStr.split in Hp. apply in_map_iff in Hp.
    destruct Hp as [w [<- Hw]]. rewrite chars_of_chars.
    pose proof (split_chars_no_sep "|"%char (PyStr.chars v)) as Hall.
    rewrite Forall_forall in Hall. apply Hall. exact Hw.
  - intros v. unfold split_patterns. cbn [flat_map]. rewrite app_nil_r.
    unfold PyStr.join, PyStr.split.
    rewrite <- (of_chars_chars (String.concat _ _)).
    rewrite split_chars_join. apply of_chars_chars.
  - unfold split_patterns. apply flat_map_ext. intros v.
    cbn [flat_map]. rewrite app_nil_r. reflexivity.
Qed.

End Patterns.

(** ** What is loaded from a file *)

Lemma universal_newlines_no_cr (t : text) :
  ~ In Codec.CR (Codec.universal_newlines t).
Proof.
  assert (Hgen : forall n t, length t <= n ->
                   ~ In Codec.CR (Codec.universal_newlines t)).
  { clear t. induction n as [|n IH]; intros t Hlen.
    - destruct t; [intros [] | simpl in Hlen; lia].
    - destruct t as [|c r]; [intros []|].
      simpl in Hlen. cbn [Codec.universal_newlines].
      destruct (N.eqb_spec c Codec.CR) as [->|Hne].
      + destruct r as [|d r'].
        * intros [E|[]]. discriminate.
        * destruct (d =? Codec.LF)%N.
          -- intros [E|Hin]; [discriminate|].
             revert Hin. apply IH. simpl in Hlen. lia.
          -- intros [E|Hin]; [discriminate|].
             revert Hin. apply IH. lia.
      + intros [E|Hin]; [congruence|].
        revert Hin. apply IH. lia. }
  apply (Hgen (length t)). lia.
Qed.

Lemma utf8_decode_ascii_bytes (bs : list N) :
  Forall (fun b => (b < 128)%N) bs -> Codec.utf8_decode bs = Some bs.
Proof.
  induction 1 as [|b bs Hb _ IH]; [reflexivity|].
  cbn [Codec.utf8_decode]. apply N.ltb_lt in Hb. rewrite Hb, IH. reflexivity.
Qed.

Section Loading.
Context `{ReEngine}.
Import RepoToMarkdown Codec.

(** X11.  A file that can be read is loaded as UTF-8 when its bytes are
    valid UTF-8 and as Latin-1, byte by byte, otherwise; line ends are
    normalised, and nothing is printed. *)
Theorem content_is_utf8_else_latin1 (env : os_env) (file_path : string)
    (bs : list N) :
  read_file env file_path = Bytes bs ->
  outcome (get_file_content env file_path)
  = Ok (universal_newlines
          (match utf8_decode bs with
           | Some decoded => decoded
           | None => bs
           end))
  /\ trace (get_file_content env file_path) = [].
Proof.
  intros Hread. unfold get_file_content, encodings. cbn [load].
  rewrite Hread. cbn [decode].
  destruct (utf8_decode bs); [split; reflexivity|].
  cbn [latin1_decode]. split; reflexivity.
Qed.

(** X12.  The text loaded from a readable file holds no carriage
    return; when all its bytes are ASCII it is the bytes themselves with
    line ends normalised. *)
Theorem loaded_text_has_no_carriage_return (env : os_env)
    (file_path : string) (bs : list N) :
  read_file env file_path = Bytes bs ->
  ~ In CR (content_value env file_path)
  /\ (Forall (fun b => (b < 128)%N) bs ->
      content_value env file_path = universal_newlines bs).
Proof.
  intros Hread. unfold content_value, encodings. cbn [load].
  rewrite Hread. cbn [decode]. split.
  - destruct (utf8_decode bs); [apply universal_newlines_no_cr|].
    cbn [latin1_decode]. apply universal_newlines_no_cr.
  - intros Hascii. rewrite (utf8_decode_ascii_bytes bs Hascii). reflexivity.
Qed.

End Loading.

(** ** The runs of [main] *)

Section MainRuns.
Context `{ReEngine}.
Import RepoToMarkdown Codec.

Lemma try_catch_main (gen : M unit) :
  try_catch
    (bind gen (fun _ =>
       bind (print (lit "Conversão concluída com sucesso!"))
         (fun _ => ret 0)))
    (fun e => bind (print (lit "Erro durante a conversão: " ++ exn_msg e))
                (fun _ => ret 1))
  = (trace gen ++ [Print (closing_line (outcome gen))],
     Ok (match outcome gen with Ok _ => 0 | Raise _ => 1 end)).
Proof.
  destruct gen as [t [[]|e]].
  - unfold print. rewrite (bind_ok_eq (t, Ok tt) _ tt eq_refl).
    rewrite bind_emit. reflexivity.
  - unfold bind at 1. unfold try_catch, print. rewrite bind_emit. reflexivity.
Qed.

Lemma main_valid_root_run (env : os_env) (directory output : string)
    (exclude : option (list string)) :
  isdir env directory = true ->
  (PosixPath.nonempty (PosixPath.dirname output)
   && negb (path_exists env (PosixPath.dirname output)) = true ->
   makedirs_error env (PosixPath.dirname output) = None) ->
  let gen := generate_markdown {| ignore_patterns := split_patterns exclude |}
               env directory output in
  main env directory output exclude
  = (preamble env output ++ trace gen ++ [Print (closing_line (outcome gen))],
     Ok (match outcome gen with Ok _ => 0 | Raise _ => 1 end)).
Proof.
  intros Hdir Hmk. cbv zeta. unfold main, preamble. rewrite Hdir. cbn [negb].
  rewrite try_catch_main.
  set (gen := generate_markdown _ env directory output).
  destruct (PosixPath.nonempty (PosixPath.dirname output)
            && negb (path_exists env (PosixPath.dirname output))) eqn:E.
  - unfold makedirs. rewrite (Hmk eq_refl).
    destruct (PyStr.endswith output ".md"); cbn [negb].
    + rewrite bind_ret, bind_emit. reflexivity.
    + unfold print. rewrite !bind_emit. reflexivity.
  - destruct (PyStr.endswith output ".md"); cbn [negb].
    + rewrite !bind_ret. reflexivity.
    + unfold print. rewrite bind_emit. cbv beta. rewrite bind_ret. reflexivity.
Qed.

Lemma main_makedirs_fails (env : os_env) (directory output : string)
    (exclude : option (list string)) (msg : text) :
  isdir env directory = true ->
  PosixPath.nonempty (PosixPath.dirname output)
  && negb (path_exists env (PosixPath.dirname output)) = true ->
  makedirs_error env (PosixPath.dirname output) = Some msg ->
  main env directory output exclude
  = ((if PyStr.endswith output ".md" then []
      else [Print (lit "Aviso: Arquivo de saída não tem extensão .md")]),
     Raise (OSError msg)).
Proof.
  intros Hdir Hneed Hmk. unfold main. rewrite Hdir. cbn [negb].
  rewrite Hneed. unfold makedirs. rewrite Hmk.
  destruct (PyStr.endswith output ".md"); cbn [negb].
  - rewrite bind_ret. reflexivity.
  - unfold print. rewrite bind_emit. reflexivity.
Qed.


Lemma generate_markdown_scan_raises (self : t) (env : os_env)
    (directory output_file : string) (e : exn) :
  scan_directory self env directory = Raise e ->
  generate_markdown self env directory output_file
  = ([Print (lit "Escaneando diretório: " ++ str directory); Walk directory],
     Raise e).
Proof.
  intros Hscan. unfold generate_markdown, print, lift. rewrite Hscan.
  rewrite !bind_emit. reflexivity.
Qed.

Lemma generate_markdown_open_fails (self : t) (env : os_env)
    (directory output_file : string) (f : string) (files : list string)
    (msg : text) :
  scan_directory self env directory = Ok (f :: files) ->
  open_write_error env output_file = Some msg ->
  generate_markdown self env directory output_file
  = ([Print (lit "Escaneando diretório: " ++ str directory); Walk directory;
      Print (lit "Encontrados " ++ str (PyStr.of_nat (length (f :: files)))
             ++ lit " arquivos de código")],
     Raise (OSError msg)).
Proof.
  intros Hscan Hopen. unfold generate_markdown, print, lift. rewrite Hscan.
  rewrite !bind_emit. cbv beta. cbn [trace outcome fst snd].
  unfold bind at 1. cbv iota beta.
  rewrite bind_emit. cbv beta zeta.
  unfold write_document, open_write. rewrite Hopen.
  reflexivity.
Qed.

(** X14.  When the scan raises (a pattern that does not compile), [main]
    prints the error after the scan line and returns 1; the output file
    is not opened, so a file already there is left as it was. *)
Theorem failed_scan_gives_status_one (env : os_env)
    (directory output : string) (exclude : option (list string)) (e : exn) :
  isdir env directory = true ->
  (PosixPath.nonempty (PosixPath.dirname output)
   && negb (path_exists env (PosixPath.dirname output)) = true ->
   makedirs_error env (PosixPath.dirname output) = None) ->
  scan_directory {| ignore_patterns := split_patterns exclude |}
    env directory = Raise e ->
  main env directory output exclude
  = (preamble env output
     ++ [Print (lit "Escaneando diretório: " ++ str directory);
         Walk directory;
         Print (lit "Erro durante a conversão: " ++ exn_msg e)],
     Ok 1)
  /\ (forall p, ~ In (OpenW p) (trace (main env directory output exclude)))
  /\ written (trace (main env directory output exclude)) = [].
Proof.
  intros Hdir Hmk Hscan.
  assert (E : main env directory output exclude
              = (preamble env output
                 ++ [Print (lit "Escaneando diretório: " ++ str directory);
                     Walk directory;
                     Print (lit "Erro durante a conversão: " ++ exn_msg e)],
                 Ok 1)).
  { rewrite (main_valid_root_run env directory output exclude Hdir Hmk).
    rewrite (generate_markdown_scan_raises _ env directory output e Hscan).
    reflexivity. }
  rewrite E. split; [reflexivity|].
  cbn [trace fst]. unfold preamble.
  destruct (PyStr.endswith output ".md");
    destruct (PosixPath.nonempty (PosixPath.dirname output)
              && negb (path_exists env (PosixPath.dirname output)));
    (split; [intros p Hin; cbn in Hin; intuition discriminate | reflexivity]).
Qed.

(** X15.  When files are found and the output file cannot be opened,
    [main] returns 1, nothing is written and the last line printed is
    the error with the message of the failure. *)
Theorem failed_open_gives_status_one (env : os_env)
    (directory output : string) (exclude : option (list string))
    (f : string) (files : list string) (msg : text) :
  isdir env directory = true ->
  (PosixPath.nonempty (PosixPath.dirname output)
   && negb (path_exists env (PosixPath.dirname output)) = true ->
   makedirs_error env (PosixPath.dirname output) = None) ->
  scan_directory {| ignore_patterns := split_patterns exclude |}
    env directory = Ok (f :: files) ->
  open_write_error env output = Some msg ->
  outcome (main env directory output exclude) = Ok 1
  /\ written (trace (main env directory output exclude)) = []
  /\ last (trace (main env directory output exclude)) (Walk directory)
     = Print (lit "Erro durante a conversão: " ++ msg).
Proof.
  intros Hdir Hmk Hscan Hopen.
  rewrite (main_valid_root_run env directory output exclude Hdir Hmk).
  rewrite (generate_markdown_open_fails _ env directory output f files msg
             Hscan Hopen).
  cbn [trace outcome fst snd closing_line exn_msg].
  split; [reflexivity|]. split.
  - unfold preamble.
    destruct (PyStr.endswith output ".md");
      destruct (PosixPath.nonempty (PosixPath.dirname output)
                && negb (path_exists env (PosixPath.dirname output)));
      reflexivity.
  - rewrite app_assoc. apply last_last.
Qed.

(** X16.  When the output path has a directory part that does not
    exist, [main] makes it before the scan starts, with only prints
    before; when making it fails the exception leaves [main] uncaught,
    and the run has done nothing but print. *)
Theorem output_directory_is_made_first (env : os_env)
    (directory output : string) (exclude : option (list string)) :
  isdir env directory = true ->
  PosixPath.nonempty (PosixPath.dirname output)
  && negb (path_exists env (PosixPath.dirname output)) = true ->
  match makedirs_error env (PosixPath.dirname output) with
  | None =>
      exists before after,
        trace (main env directory output exclude)
        = before ++ MakeDirs (PosixPath.dirname output)
                 :: Print (lit "Escaneando diretório: " ++ str directory)
                 :: Walk directory :: after
        /\ Forall (fun ev => exists line, ev = Print line) before
  | Some msg =>
      outcome (main env directory output exclude) = Raise (OSError msg)
      /\ Forall (fun ev => exists line, ev = Print line)
           (trace (main env directory output exclude))
  end.
Proof.
  intros Hdir Hneed.
  destruct (makedirs_error env (PosixPath.dirname output)) as [msg|] eqn:Hmk.
  - rewrite (main_makedirs_fails env directory output exclude msg
               Hdir Hneed Hmk).
    split; [reflexivity|]. cbn [trace fst].
    destruct (PyStr.endswith output ".md"); repeat constructor. eauto.
  - rewrite (main_valid_root_run env directory output exclude Hdir
               (fun _ => Hmk)).
    cbn [trace fst]. unfold preamble. rewrite Hneed.
    set (gen := generate_markdown _ env directory output).
    assert (Hgen : exists rest,
               trace gen = Print (lit "Escaneando diretório: " ++ str directory)
                           :: Walk directory :: rest).
    { subst gen. unfold generate_markdown, print. rewrite !bind_emit.
      cbn [trace fst]. eauto. }
    destruct Hgen as [rest Hrest]. rewrite Hrest.
    exists (if PyStr.endswith output ".md" then []
            else [Print (lit "Aviso: Arquivo de saída não tem extensão .md")]).
    eexists. split.
    + rewrite <- app_assoc. cbn [app]. reflexivity.
    + destruct (PyStr.endswith output ".md"); repeat constructor. eauto.
Qed.

(** X17.  A scan that finds no file is a success: after the no-files
    line [main] prints the success line and returns 0, and the run has
    opened no file. *)
Theorem empty_scan_is_a_success (env : os_env)
    (directory output : string) (exclude : option (list string)) :
  isdir env directory = true ->
  (PosixPath.nonempty (PosixPath.dirname output)
   && negb (path_exists env (PosixPath.dirname output)) = true ->
   makedirs_error env (PosixPath.dirname output) = None) ->
  scan_directory {| ignore_patterns := split_patterns exclude |}
    env directory = Ok [] ->
  main env directory output exclude
  = (preamble env output
     ++ [Print (lit "Escaneando diretório: " ++ str directory);
         Walk directory;
         Print (lit "Nenhum arquivo de código encontrado!");
         Print (lit "Conversão concluída com sucesso!")],
     Ok 0).
Proof.
  intros Hdir Hmk Hscan.
  rewrite (main_valid_root_run env directory output exclude Hdir Hmk).
  assert (E : generate_markdown {| ignore_patterns := split_patterns exclude |}
                env directory output
              = ([Print (lit "Escaneando diretório: " ++ str directory);
                  Walk directory;
                  Print (lit "Nenhum arquivo de código encontrado!")], Ok tt)).
  { unfold generate_markdown, print, lift. rewrite Hscan.
    rewrite !bind_emit. reflexivity. }
  rewrite E. reflexivity.
Qed.

End MainRuns.

(** ** The loader and [main] on the sample file system *)

Lemma content_is_utf8_else_latin1_witness :
  read_file Sample.env "proj/tmp/a.py" = Bytes [35; 32; 255; 10]%N
  /\ outcome (RepoToMarkdown.get_file_content Sample.env "proj/tmp/a.py")
     = Ok [35; 32; 255; 10]%N.
Proof.
  assert (Hr : read_file Sample.env "proj/tmp/a.py"
               = Bytes [35; 32; 255; 10]%N) by reflexivity.
  split; [exact Hr|].
  exact (proj1 (content_is_utf8_else_latin1 Sample.env "proj/tmp/a.py" _ Hr)).
Defined.

Lemma loaded_text_has_no_carriage_return_witness :
  read_file Sample.env "proj/foo.py" = Bytes (Codec.str "print(1)")
  /\ ~ In Codec.CR (content_value Sample.env "proj/foo.py").
Proof.
  assert (Hr : read_file Sample.env "proj/foo.py"
               = Bytes (Codec.str "print(1)")) by reflexivity.
  split; [exact Hr|].
  exact (proj1 (loaded_text_has_no_carriage_return Sample.env "proj/foo.py"
                  _ Hr)).
Defined.

Lemma failed_scan_gives_status_one_witness :
  RepoToMarkdown.scan_directory
    {| RepoToMarkdown.ignore_patterns := split_patterns (Some ["("]) |}
    Sample.env "proj" = Raise (ReError (Codec.lit "pattern refused"))
  /\ outcome (main Sample.env "proj" "out/all.md" (Some ["("])) = Ok 1
  /\ written (trace (main Sample.env "proj" "out/all.md" (Some ["("]))) = [].
Proof.
  assert (Hdir : isdir Sample.env "proj" = true) by reflexivity.
  assert (Hmk : PosixPath.nonempty (PosixPath.dirname "out/all.md")
                && negb (path_exists Sample.env (PosixPath.dirname "out/all.md"))
                = true ->
                makedirs_error Sample.env (PosixPath.dirname "out/all.md") = None)
    by (intros _; reflexivity).
  assert (Hscan : RepoToMarkdown.scan_directory
                    {| RepoToMarkdown.ignore_patterns :=
                         split_patterns (Some ["("]) |}
                    Sample.env "proj"
                  = Raise (ReError (Codec.lit "pattern refused")))
    by reflexivity.
  destruct (failed_scan_gives_status_one Sample.env "proj" "out/all.md"
              (Some ["("]) _ Hdir Hmk Hscan) as [Hrun [_ Hw]].
  split; [exact Hscan|]. split; [|exact Hw].
  rewrite Hrun. reflexivity.
Defined.

Lemma failed_open_gives_status_one_witness :
  open_write_error Sample.read_only "out/all.md"
  = Some (Codec.lit "[Errno 13] Permission denied")
  /\ outcome (main Sample.read_only "proj" "out/all.md" None) = Ok 1
  /\ written (trace (main Sample.read_only "proj" "out/all.md" None)) = [].
Proof.
  assert (Hdir : isdir Sample.read_only "proj" = true) by reflexivity.
  assert (Hmk : PosixPath.nonempty (PosixPath.dirname "out/all.md")
                && negb (path_exists Sample.read_only
                           (PosixPath.dirname "out/all.md")) = true ->
                makedirs_error Sample.read_only
                  (PosixPath.dirname "out/all.md") = None)
    by (intros _; reflexivity).
  assert (Hscan : RepoToMarkdown.scan_directory
                    {| RepoToMarkdown.ignore_patterns := split_patterns None |}
                    Sample.read_only "proj"
                  = Ok ["proj/foo.py"; "proj/test_foo.py"; "proj/tmp/a.py"])
    by reflexivity.
  assert (Hopen : open_write_error Sample.read_only "out/all.md"
                  = Some (Codec.lit "[Errno 13] Permission denied"))
    by reflexivity.
  destruct (failed_open_gives_status_one Sample.read_only "proj" "out/all.md"
              None _ _ _ Hdir Hmk Hscan Hopen) as [Ho [Hw _]].
  split; [exact Hopen|]. split; [exact Ho | exact Hw].
Defined.

Lemma output_directory_is_made_first_witness :
  PosixPath.nonempty (PosixPath.dirname "new/all.md")
  && negb (path_exists Sample.env (PosixPath.dirname "new/all.md")) = true
  /\ exists before after,
       trace (main Sample.env "notes" "new/all.md" None)
       = before ++ MakeDirs "new"
                :: Print (Codec.lit "Escaneando diretório: " ++ Codec.str "notes")
                :: Walk "notes" :: after
       /\ Forall (fun ev => exists line, ev = Print line) before.
Proof.
  assert (Hdir : isdir Sample.env "notes" = true) by reflexivity.
  assert (Hneed : PosixPath.nonempty (PosixPath.dirname "new/all.md")
                  && negb (path_exists Sample.env
                             (PosixPath.dirname "new/all.md")) = true)
    by reflexivity.
  split; [exact Hneed|].
  exact (output_directory_is_made_first Sample.env "notes" "new/all.md" None
           Hdir Hneed).
Defined.

Lemma empty_scan_is_a_success_witness :
  RepoToMarkdown.scan_directory
    {| RepoToMarkdown.ignore_patterns := split_patterns None |}
    Sample.env "notes" = Ok []
  /\ outcome (main Sample.env "notes" "out/all.md" None) = Ok 0.
Proof.
  assert (Hdir : isdir Sample.env "notes" = true) by reflexivity.
  assert (Hmk : PosixPath.nonempty (PosixPath.dirname "out/all.md")
                && negb (path_exists Sample.env (PosixPath.dirname "out/all.md"))
                = true ->
                makedirs_error Sample.env (PosixPath.dirname "out/all.md") = None)
    by (intros _; reflexivity).
  assert (Hscan : RepoToMarkdown.scan_directory
                    {| RepoToMarkdown.ignore_patterns := split_patterns None |}
                    Sample.env "notes" = Ok []) by reflexivity.
  split; [exact Hscan|].
  rewrite (empty_scan_is_a_success Sample.env "notes" "out/all.md" None
             Hdir Hmk Hscan).
  reflexivity.
Defined.

(** ** Paths made by [os.path.join] *)

Lemma str_app_assoc (a b c : string) :
  ((a ++ b) ++ c = a ++ (b ++ c))%string.
Proof. induction a as [|x a IH]; simpl; [reflexivity | rewrite IH; reflexivity]. Qed.

Lemma split_chars_app (c : ascii) (l m : list ascii) :
  PyStr.split_chars c (l ++ c :: m)
  = PyStr.split_chars c l ++ PyStr.split_chars c m.
Proof.
  induction l as [|a l IH]; cbn [app PyStr.split_chars].
  - rewrite Ascii.eqb_refl. reflexivity.
  - rewrite IH. destruct (Ascii.eqb a c); [reflexivity|].
    destruct (split_chars_cons c l) as [w [ws E]]. rewrite E. reflexivity.
Qed.

Lemma split_chars_plain (c : ascii) (m : list ascii) :
  existsb (Ascii.eqb c) m = false -> PyStr.split_chars c m = [m].
Proof.
  induction m as [|a m IH]; cbn [existsb PyStr.split_chars]; [reflexivity|].
  rewrite Ascii.eqb_sym. destruct (Ascii.eqb a c); [discriminate|].
  cbn [orb]. intros Hm. rewrite (IH Hm). reflexivity.
Qed.

Lemma split_app_name (a n : string) :
  existsb (Ascii.eqb PyStr.sep) (PyStr.chars n) = false ->
  PyStr.split PyStr.sep (a ++ "/" ++ n)%string
  = PyStr.split PyStr.sep a ++ [n].
Proof.
  intros Hn. unfold PyStr.split.
  rewrite chars_app. change (PyStr.chars ("/" ++ n)%string)
    with (PyStr.sep :: PyStr.chars n).
  rewrite split_chars_app, map_app, (split_chars_plain _ _ Hn).
  cbn [map]. rewrite of_chars_chars. reflexivity.
Qed.

Lemma endswith_slash (a : string) :
  PyStr.endswith a "/" = true ->
  exists b, a = (b ++ "/")%string.
Proof.
  unfold PyStr.endswith. intros He.
  rewrite <- (of_chars_chars a).
  destruct (rev (PyStr.chars a)) as [|x r] eqn:E; [discriminate|].
  change (rev (PyStr.chars "/")) with ["/"%char] in He.
  cbn [PyStr.list_prefix] in He. rewrite andb_true_r in He.
  apply Ascii.eqb_eq in He. subst x.
  assert (Hc : PyStr.chars a = rev r ++ ["/"%char]).
  { rewrite <- (rev_involutive (PyStr.chars a)), E. reflexivity. }
  rewrite Hc. exists (PyStr.of_chars (rev r)).
  rewrite of_chars_app. reflexivity.
Qed.

Lemma name_not_absolute (n : string) :
  is_name n = true -> PyStr.startswith n "/" = false.
Proof.
  unfold is_name, PyStr.startswith. intros Hn.
  apply andb_prop in Hn. destruct Hn as [_ Hn].
  apply negb_true_iff in Hn.
  destruct n as [|c n]; [reflexivity|].
  cbn [String.prefix].
  destruct (Ascii.ascii_dec "/" c) as [<-|Hne]; [|reflexivity].
  cbn [PyStr.chars list_ascii_of_string existsb] in Hn.
  unfold PyStr.sep in Hn. rewrite Ascii.eqb_refl in Hn. discriminate.
Qed.

Lemma name_no_sep (n : string) :
  is_name n = true ->
  existsb (Ascii.eqb PyStr.sep) (PyStr.chars n) = false.
Proof.
  unfold is_name. intros Hn. apply andb_prop in Hn. destruct Hn as [_ Hn].
  apply negb_true_iff in Hn. exact Hn.
Qed.

Lemma name_kept (n : string) :
  is_name n = true ->
  String.eqb n "" = false /\ String.eqb n "." = false
  /\ String.eqb n ".." = false.
Proof.
  unfold is_name. intros Hn.
  apply andb_prop in Hn. destruct Hn as [Hn _].
  apply andb_prop in Hn. destruct Hn as [Hn H3].
  apply andb_prop in Hn. destruct Hn as [H1 H2].
  rewrite negb_true_iff in H1, H2, H3. auto.
Qed.

(** The components of [join(a, n)] are those of [a], without the empty
    one a final slash of [a] leaves, then [n]. *)
Lemma split_join (a n : string) :
  is_name n = true ->
  exists xs,
    PyStr.split PyStr.sep (PosixPath.join a n) = xs ++ [n]
    /\ (PyStr.split PyStr.sep a = xs
        \/ PyStr.split PyStr.sep a = xs ++ [""]).
Proof.
  intros Hn. unfold PosixPath.join.
  rewrite (name_not_absolute n Hn).
  pose proof (name_no_sep n Hn) as Hsep.
  destruct (String.eqb_spec a "") as [->|Hne]; cbn [orb].
  - exists []. split.
    + unfold PyStr.split. cbn [append].
      rewrite (split_chars_plain _ _ Hsep). cbn [map app].
      rewrite of_chars_chars. reflexivity.
    + right. reflexivity.
  - destruct (PyStr.endswith a "/") eqn:Ee.
    + destruct (endswith_slash a Ee) as [b ->].
      exists (PyStr.split PyStr.sep b). split.
      * rewrite str_app_assoc. apply split_app_name. exact Hsep.
      * right. rewrite <- (split_app_name b "" eq_refl).
        reflexivity.
    + exists (PyStr.split PyStr.sep a). split.
      * apply split_app_name. exact Hsep.
      * left. reflexivity.
Qed.

Lemma path_name_join (a n : string) :
  is_name n = true -> PosixPath.path_name (PosixPath.join a n) = n.
Proof.
  intros Hn. unfold PosixPath.path_name.
  destruct (split_join a n Hn) as [xs [-> _]].
  rewrite filter_app. cbn [filter].
  destruct (name_kept n Hn) as [H1 [H2 _]]. rewrite H1, H2. cbn [orb negb].
  apply last_last.
Qed.

Lemma path_name_of_name (n : string) :
  is_name n = true -> PosixPath.path_name n = n.
Proof.
  intros Hn. unfold PosixPath.path_name, PyStr.split.
  rewrite (split_chars_plain _ _ (name_no_sep n Hn)). cbn [map filter].
  rewrite of_chars_chars.
  destruct (name_kept n Hn) as [H1 [H2 _]]. rewrite H1, H2. reflexivity.
Qed.

(** X18.  The directory a file is in plays no part in its label: for a
    file name joined to any root, the suffix, the answer of
    [is_code_file] and the label are those of the name alone. *)
Theorem file_name_decides_the_label (root name : string) :
  is_name name = true ->
  PosixPath.suffix (PosixPath.join root name) = PosixPath.suffix name
  /\ RepoToMarkdown.is_code_file (PosixPath.join root name)
     = RepoToMarkdown.is_code_file name
  /\ RepoToMarkdown.get_language_from_extension (PosixPath.join root name)
     = RepoToMarkdown.get_language_from_extension name.
Proof.
  intros Hn.
  assert (Hs : PosixPath.suffix (PosixPath.join root name)
               = PosixPath.suffix name).
  { unfold PosixPath.suffix.
    rewrite (path_name_join root name Hn), (path_name_of_name name Hn).
    reflexivity. }
  split; [exact Hs|].
  unfold RepoToMarkdown.is_code_file,
    RepoToMarkdown.get_language_from_extension.
  rewrite Hs. split; reflexivity.
Qed.

Lemma file_name_decides_the_label_witness :
  is_name "a.PY" = true
  /\ RepoToMarkdown.get_language_from_extension (PosixPath.join "proj/tmp" "a.PY")
     = RepoToMarkdown.get_language_from_extension "a.PY".
Proof.
  assert (Hn : is_name "a.PY" = true) by reflexivity.
  split; [exact Hn|].
  exact (proj2 (proj2 (file_name_decides_the_label "proj/tmp" "a.PY" Hn))).
Defined.

(** ** Relative paths of walked files *)

Lemma name_is_comp (n : string) : is_name n = true -> is_comp n = true.
Proof.
  intros Hn. unfold is_comp, PosixPath.nonempty.
  destruct (name_kept n Hn) as [H1 _]. rewrite H1, (name_no_sep n Hn).
  reflexivity.
Qed.

Lemma comps_join_name (a n : string) :
  is_name n = true -> comps (PosixPath.join a n) = comps a ++ [n].
Proof.
  intros Hn. unfold comps.
  destruct (split_join a n Hn) as [xs [-> Hxs]].
  rewrite filter_app. cbn [filter].
  unfold PosixPath.nonempty at 2.
  destruct (name_kept n Hn) as [H1 _]. rewrite H1. cbn [negb].
  destruct Hxs as [->| ->]; [reflexivity|].
  rewrite filter_app. cbn. rewrite app_nil_r. reflexivity.
Qed.

Lemma comps_fold_join (names : list string) (a : string) :
  Forall (fun n => is_name n = true) names ->
  comps (fold_left PosixPath.join names a) = comps a ++ names.
Proof.
  intros Hn. revert a. induction Hn as [|n names Hn _ IH]; intros a.
  - cbn. rewrite app_nil_r. reflexivity.
  - cbn [fold_left]. rewrite IH, (comps_join_name a n Hn), <- app_assoc.
    reflexivity.
Qed.

Lemma split_head_sep (m : string) :
  PyStr.split PyStr.sep ("/" ++ m)%string = "" :: PyStr.split PyStr.sep m.
Proof.
  unfold PyStr.split.
  change (PyStr.chars ("/" ++ m)%string) with ([] ++ PyStr.sep :: PyStr.chars m).
  rewrite split_chars_app. reflexivity.
Qed.

Lemma split_app_sep (a m : string) :
  PyStr.split PyStr.sep (a ++ "/" ++ m)%string
  = PyStr.split PyStr.sep a ++ PyStr.split PyStr.sep m.
Proof.
  unfold PyStr.split. rewrite chars_app.
  change (PyStr.chars ("/" ++ m)%string) with (PyStr.sep :: PyStr.chars m).
  rewrite split_chars_app, map_app. reflexivity.
Qed.

(** [join(c, y)] for a relative [y] and a non-empty [c]. *)
Lemma comps_join_relative (c y : string) :
  c <> "" -> PyStr.startswith y "/" = false ->
  comps (PosixPath.join c y) = comps c ++ comps y.
Proof.
  intros Hc Hy. unfold PosixPath.join. rewrite Hy.
  destruct (String.eqb_spec c "") as [->|_]; [contradiction|]. cbn [orb].
  unfold comps. destruct (PyStr.endswith c "/") eqn:Ee.
  - destruct (endswith_slash c Ee) as [b ->].
    assert (Eb : PyStr.split PyStr.sep (b ++ "/")%string
                 = PyStr.split PyStr.sep b ++ [""])
      by (apply (split_app_sep b "")).
    rewrite Eb, str_app_assoc, split_app_sep, !filter_app.
    cbn [filter PosixPath.nonempty String.eqb negb]. rewrite app_nil_r.
    reflexivity.
  - rewrite split_app_sep, filter_app. reflexivity.
Qed.

Lemma startswith_app (a b : string) :
  PyStr.startswith a "/" = true -> PyStr.startswith (a ++ b) "/" = true.
Proof.
  unfold PyStr.startswith. destruct a as [|c a]; [discriminate|].
  cbn [String.prefix append].
  destruct (Ascii.ascii_dec "/" c); [|discriminate].
  intros _. destruct (a ++ b)%string; reflexivity.
Qed.

Lemma join_absolute (a b : string) :
  PyStr.startswith a "/" = true -> PyStr.startswith (PosixPath.join a b) "/" = true.
Proof.
  intros Ha. unfold PosixPath.join.
  destruct (PyStr.startswith b "/") eqn:Eb; [exact Eb|].
  destruct (String.eqb a "" || PyStr.endswith a "/")%bool;
    apply startswith_app; exact Ha.
Qed.

Lemma join_relative_name (a n : string) :
  PyStr.startswith a "/" = false -> is_name n = true ->
  PyStr.startswith (PosixPath.join a n) "/" = false.
Proof.
  intros Ha Hn. unfold PosixPath.join.
  rewrite (name_not_absolute n Hn).
  pose proof (name_not_absolute n Hn) as Hnn.
  destruct a as [|c a]; [exact Hnn|].
  cbn [String.eqb orb].
  unfold PyStr.startswith in *. cbn [String.prefix] in Ha.
  destruct (PyStr.endswith (String c a) "/"); cbn [append String.prefix];
    (destruct (Ascii.ascii_dec "/" c); [|reflexivity]);
    destruct a; discriminate.
Qed.

Lemma fold_join_absolute (names : list string) (a : string) :
  PyStr.startswith a "/" = true ->
  PyStr.startswith (fold_left PosixPath.join names a) "/" = true.
Proof.
  revert a. induction names as [|n names IH]; intros a Ha; [exact Ha|].
  cbn [fold_left]. apply IH, join_absolute, Ha.
Qed.

Lemma fold_join_relative (names : list string) (a : string) :
  Forall (fun n => is_name n = true) names ->
  PyStr.startswith a "/" = false ->
  PyStr.startswith (fold_left PosixPath.join names a) "/" = false.
Proof.
  intros Hn. revert a. induction Hn as [|n names Hn _ IH]; intros a Ha;
    [exact Ha|].
  cbn [fold_left]. apply IH, join_relative_name; assumption.
Qed.

(** *** [normpath] on an absolute path *)

Lemma norm_comps_filter (i : bool) (l acc : list string) :
  PosixPath.norm_comps i l acc
  = PosixPath.norm_comps i (filter PosixPath.nonempty l) acc.
Proof.
  revert acc. induction l as [|x l IH]; intros acc; [reflexivity|].
  cbn [filter]. unfold PosixPath.nonempty at 1.
  destruct (String.eqb x "") eqn:Ex; cbn [negb].
  - cbn [PosixPath.norm_comps]. rewrite Ex. cbn [orb]. apply IH.
  - cbn [PosixPath.norm_comps]. rewrite Ex. cbn [orb].
    destruct (String.eqb x "."); [apply IH|].
    destruct (negb (String.eqb x "..")
              || negb i && match acc with [] => true | _ :: _ => false end
              || match acc with [] => false | top :: _ => String.eqb top ".." end)%bool;
      [apply IH|].
    destruct acc; apply IH.
Qed.

Lemma norm_comps_names (i : bool) (names l acc : list string) :
  Forall (fun n => is_name n = true) names ->
  PosixPath.norm_comps i (l ++ names) acc
  = PosixPath.norm_comps i l acc ++ names.
Proof.
  intros Hn. revert acc. induction l as [|x l IH]; intros acc.
  - cbn [app]. revert acc.
    induction Hn as [|n names Hn _ IHn]; intros acc.
    + cbn. rewrite app_nil_r. reflexivity.
    + cbn [PosixPath.norm_comps].
      destruct (name_kept n Hn) as [H1 [H2 H3]]. rewrite H1, H2, H3.
      cbn [orb negb]. rewrite IHn. cbn [PosixPath.norm_comps rev].
      rewrite <- app_assoc. reflexivity.
  - cbn [app PosixPath.norm_comps].
    destruct (String.eqb x "" || String.eqb x ".")%bool; [apply IH|].
    destruct (negb (String.eqb x "..")
              || negb i && match acc with [] => true | _ :: _ => false end
              || match acc with [] => false | top :: _ => String.eqb top ".." end)%bool;
      [apply IH|].
    destruct acc; apply IH.
Qed.

Lemma norm_comps_are_comps (i : bool) (l acc : list string) :
  Forall (fun x => existsb (Ascii.eqb PyStr.sep) (PyStr.chars x) = false) l ->
  Forall (fun x => is_comp x = true) acc ->
  Forall (fun x => is_comp x = true) (PosixPath.norm_comps i l acc).
Proof.
  intros Hl. revert acc. induction Hl as [|x l Hx _ IH]; intros acc Hacc.
  - cbn. apply Forall_rev. exact Hacc.
  - cbn [PosixPath.norm_comps].
    destruct (String.eqb x "") eqn:Ex; cbn [orb]; [apply IH, Hacc|].
    destruct (String.eqb x "."); [apply IH, Hacc|].
    destruct (negb (String.eqb x "..")
              || negb i && match acc with [] => true | _ :: _ => false end
              || match acc with [] => false | top :: _ => String.eqb top ".." end)%bool.
    + apply IH. constructor; [|exact Hacc].
      unfold is_comp, PosixPath.nonempty. rewrite Ex, Hx. reflexivity.
    + destruct acc as [|top acc']; [apply IH, Hacc|].
      apply IH. inversion Hacc; assumption.
Qed.

Lemma split_no_sep (p : string) :
  Forall (fun x => existsb (Ascii.eqb PyStr.sep) (PyStr.chars x) = false)
    (PyStr.split PyStr.sep p).
Proof.
  unfold PyStr.split. apply Forall_forall. intros x Hin.
  apply in_map_iff in Hin. destruct Hin as [w [<- Hw]].
  rewrite chars_of_chars.
  pose proof (split_chars_no_sep PyStr.sep (PyStr.chars p)) as Hall.
  rewrite Forall_forall in Hall. specialize (Hall w Hw).
  destruct (existsb (Ascii.eqb PyStr.sep) w) eqn:E; [|reflexivity].
  exfalso. apply Hall. apply existsb_exists in E.
  destruct E as [c [Hc Hcs]]. apply Ascii.eqb_eq in Hcs. subst c. exact Hc.
Qed.

(** The components of a path written from components. *)
Lemma comps_concat (cs : list string) :
  Forall (fun x => is_comp x = true) cs ->
  comps (String.concat "/" cs) = cs.
Proof.
  unfold comps. induction 1 as [|x cs Hx Hcs IH]; [reflexivity|].
  apply andb_prop in Hx. destruct Hx as [Hne Hsep].
  apply negb_true_iff in Hsep.
  assert (Hsplit : PyStr.split PyStr.sep x = [x]).
  { unfold PyStr.split. rewrite (split_chars_plain _ _ Hsep). cbn [map].
    rewrite of_chars_chars. reflexivity. }
  destruct cs as [|y cs].
  - cbn [String.concat]. rewrite Hsplit. cbn [filter]. rewrite Hne. reflexivity.
  - change (String.concat "/" (x :: y :: cs))
      with (x ++ "/" ++ String.concat "/" (y :: cs))%string.
    rewrite split_app_sep, filter_app, IH, Hsplit. cbn [filter].
    rewrite Hne. reflexivity.
Qed.

Lemma normpath_absolute (p : string) :
  PyStr.startswith p "/" = true ->
  comps (PosixPath.normpath p)
  = PosixPath.norm_comps true (comps p) [].
Proof.
  intros Hp. unfold PosixPath.normpath. rewrite Hp.
  destruct (String.eqb_spec p "") as [->|_]; [discriminate|].
  set (cs := PosixPath.norm_comps true (PyStr.split PyStr.sep p) []).
  assert (Hcs : Forall (fun x => is_comp x = true) cs).
  { apply norm_comps_are_comps; [apply split_no_sep | constructor]. }
  assert (Ecs : PosixPath.norm_comps true (comps p) [] = cs).
  { unfold comps. symmetry. apply norm_comps_filter. }
  rewrite Ecs.
  destruct (PyStr.startswith p "//" && negb (PyStr.startswith p "///"))%bool.
  - change ("//" ++ PyStr.join "/" cs)%string
      with ("/" ++ "/" ++ String.concat "/" cs)%string.
    cbn [String.eqb append]. unfold comps.
    change (String "/" (String "/" (String.concat "/" cs)))
      with ("/" ++ "/" ++ String.concat "/" cs)%string.
    rewrite !split_head_sep. cbn [filter PosixPath.nonempty String.eqb negb].
    apply comps_concat. exact Hcs.
  - cbn [String.eqb append]. unfold comps.
    change (String "/" (PyStr.join "/" cs))
      with ("/" ++ String.concat "/" cs)%string.
    rewrite split_head_sep. cbn [filter PosixPath.nonempty String.eqb negb].
    apply comps_concat. exact Hcs.
Qed.

(** *** [relpath] of a path made by joins *)

Lemma comps_abspath (cwd p : string) :
  PyStr.startswith cwd "/" = true ->
  comps (PosixPath.abspath cwd p)
  = PosixPath.norm_comps true
      (if PosixPath.isabs p then comps p else comps cwd ++ comps p) [].
Proof.
  intros Hc. unfold PosixPath.abspath, PosixPath.isabs.
  destruct (PyStr.startswith p "/") eqn:Ep.
  - apply normpath_absolute. exact Ep.
  - rewrite normpath_absolute by (apply join_absolute; exact Hc).
    rewrite comps_join_relative; [reflexivity | | exact Ep].
    intros ->. discriminate.
Qed.

Lemma common_prefix (a b : list string) :
  PosixPath.common a (a ++ b) = length a.
Proof.
  induction a as [|x a IH]; [destruct b; reflexivity|].
  cbn [PosixPath.common app length]. rewrite String.eqb_refl, IH. reflexivity.
Qed.

Lemma endswith_name (a n : string) :
  is_name n = true -> PyStr.endswith (a ++ n)%string "/" = false.
Proof.
  intros Hn. unfold PyStr.endswith. rewrite chars_app, rev_app_distr.
  change (rev (PyStr.chars "/")) with ["/"%char].
  pose proof (name_no_sep n Hn) as Hsep.
  destruct (name_kept n Hn) as [Hne _].
  destruct (rev (PyStr.chars n)) as [|c r] eqn:E.
  - exfalso. assert (Hc : PyStr.chars n = []).
    { rewrite <- (rev_involutive (PyStr.chars n)), E. reflexivity. }
    rewrite <- (of_chars_chars n), Hc in Hne. discriminate.
  - cbn [app PyStr.list_prefix]. rewrite andb_true_r.
    destruct (Ascii.eqb_spec "/"%char c) as [<-|]; [|reflexivity].
    assert (Hin : In "/"%char (PyStr.chars n)).
    { apply in_rev. rewrite E. left. reflexivity. }
    assert (Hex : existsb (Ascii.eqb PyStr.sep) (PyStr.chars n) = true).
    { apply existsb_exists. exists "/"%char. split; [exact Hin|].
      apply Ascii.eqb_refl. }
    congruence.
Qed.

Lemma str_app_nil_r (a : string) : (a ++ "")%string = a.
Proof. induction a as [|c a IH]; simpl; [reflexivity | rewrite IH; reflexivity]. Qed.

Lemma endswith_name_alone (n : string) :
  is_name n = true -> PyStr.endswith n "/" = false.
Proof. intros Hn. exact (endswith_name "" n Hn). Qed.

Lemma join_after_name (acc k : string) :
  String.eqb acc "" = false -> PyStr.endswith acc "/" = false ->
  is_name k = true ->
  PosixPath.join acc k = (acc ++ "/" ++ k)%string.
Proof.
  intros Hne He Hk. unfold PosixPath.join.
  rewrite (name_not_absolute k Hk), Hne, He. reflexivity.
Qed.

Lemma fold_join_names (l : list string) (acc : string) :
  String.eqb acc "" = false -> PyStr.endswith acc "/" = false ->
  Forall (fun n => is_name n = true) l ->
  fold_left PosixPath.join l acc
  = (acc ++ fold_right (fun k r => "/" ++ k ++ r) "" l)%string.
Proof.
  intros Hne He Hl. revert acc Hne He.
  induction Hl as [|k l Hk _ IH]; intros acc Hne He.
  - cbn. symmetry. apply str_app_nil_r.
  - cbn [fold_left fold_right].
    rewrite (join_after_name acc k Hne He Hk), IH.
    + rewrite !str_app_assoc. reflexivity.
    + destruct acc; [discriminate | reflexivity].
    + replace (acc ++ "/" ++ k)%string with ((acc ++ "/") ++ k)%string
        by apply str_app_assoc.
      apply endswith_name. exact Hk.
Qed.

Lemma concat_names (n : string) (l : list string) :
  String.concat "/" (n :: l)
  = (n ++ fold_right (fun k r => "/" ++ k ++ r) "" l)%string.
Proof.
  revert n. induction l as [|m l IH]; intros n.
  - cbn. symmetry. apply str_app_nil_r.
  - change (String.concat "/" (n :: m :: l))
      with (n ++ "/" ++ String.concat "/" (m :: l))%string.
    rewrite IH. reflexivity.
Qed.

Lemma join_all_names (n : string) (names : list string) :
  Forall (fun n => is_name n = true) (n :: names) ->
  PosixPath.join_all (n :: names) = String.concat "/" (n :: names).
Proof.
  intros Hall. inversion Hall as [|? ? Hn Hnames]; subst.
  cbn [PosixPath.join_all]. rewrite concat_names.
  apply fold_join_names; [| apply endswith_name_alone, Hn | exact Hnames].
  destruct (name_kept n Hn) as [Hne _]. exact Hne.
Qed.

Lemma relpath_join_chain (cwd directory : string)
    (name : string) (names : list string) :
  PosixPath.isabs cwd = true ->
  Forall (fun n => is_name n = true) (name :: names) ->
  PosixPath.relpath cwd
    (fold_left PosixPath.join (name :: names) directory) directory
  = String.concat "/" (name :: names).
Proof.
  intros Hcwd Hnames. unfold PosixPath.isabs in Hcwd.
  unfold PosixPath.relpath. fold (comps (PosixPath.abspath cwd directory)).
  fold (comps (PosixPath.abspath cwd
                 (fold_left PosixPath.join (name :: names) directory))).
  rewrite !(comps_abspath cwd) by exact Hcwd.
  unfold PosixPath.isabs.
  assert (Hpath :
    (if PyStr.startswith
          (fold_left PosixPath.join (name :: names) directory) "/"
     then comps (fold_left PosixPath.join (name :: names) directory)
     else comps cwd
          ++ comps (fold_left PosixPath.join (name :: names) directory))
    = (if PyStr.startswith directory "/" then comps directory
       else comps cwd ++ comps directory) ++ (name :: names)).
  { rewrite (comps_fold_join _ directory Hnames).
    destruct (PyStr.startswith directory "/") eqn:Ed.
    - rewrite (fold_join_absolute _ directory Ed). reflexivity.
    - rewrite (fold_join_relative _ directory Hnames Ed).
      rewrite app_assoc. reflexivity. }
  rewrite Hpath, (norm_comps_names true _ _ [] Hnames).
  set (base := PosixPath.norm_comps true _ []).
  rewrite common_prefix, Nat.sub_diag. cbn [repeat app].
  rewrite skipn_app, skipn_all, Nat.sub_diag. cbn [skipn app].
  apply join_all_names. exact Hnames.
Qed.

(** X19.  With an absolute working directory, the path relative to
    [directory] of a path made by joining names to [directory], one
    after the other, is the names joined by slashes, however
    [directory] is written. *)
Theorem relpath_of_walked_path (cwd directory : string)
    (name : string) (names : list string) :
  PosixPath.isabs cwd = true ->
  Forall (fun n => is_name n = true) (name :: names) ->
  PosixPath.relpath cwd
    (fold_left PosixPath.join (name :: names) directory) directory
  = String.concat "/" (name :: names).
Proof. exact (relpath_join_chain cwd directory name names). Qed.

Lemma relpath_of_walked_path_witness :
  PosixPath.isabs "/home/u" = true
  /\ Forall (fun n => is_name n = true) ["tmp"; "a.py"]
  /\ PosixPath.relpath "/home/u"
       (fold_left PosixPath.join ["tmp"; "a.py"] "./x/../proj/") "./x/../proj/"
     = "tmp/a.py".
Proof.
  assert (Hc : PosixPath.isabs "/home/u" = true) by reflexivity.
  assert (Hn : Forall (fun n => is_name n = true) ["tmp"; "a.py"])
    by (repeat constructor).
  split; [exact Hc|]. split; [exact Hn|].
  exact (relpath_of_walked_path "/home/u" "./x/../proj/" "tmp" ["a.py"] Hc Hn).
Defined.

(** ** The paths a scan returns *)

Section WalkedPaths.
Context `{ReEngine}.
Import RepoToMarkdown.

Lemma in_file_names_inv (f : string) (cs : list entry) :
  In f (file_names cs) -> In (File f) cs.
Proof.
  unfold file_names. intros Hin. apply in_flat_map in Hin.
  destruct Hin as [e [He Hf]]. destruct e as [g|d sub]; [|contradiction].
  destruct Hf as [<-|[]]. exact He.
Qed.

Lemma leads_to_file_here (f : string) (cs : list entry) :
  In (File f) cs -> leads_to_file [f] cs = true.
Proof.
  intros Hin. cbn. apply existsb_exists. exists (File f).
  split; [exact Hin | apply String.eqb_refl].
Qed.

Lemma leads_to_file_below (d : string) (sub cs : list entry)
    (names : list string) :
  In (Dir d sub) cs -> leads_to_file names sub = true ->
  leads_to_file (d :: names) cs = true.
Proof.
  intros Hin Hl. destruct names as [|n names]; [discriminate|].
  cbn [leads_to_file]. apply existsb_exists. exists (Dir d sub).
  split; [exact Hin|]. rewrite String.eqb_refl. exact Hl.
Qed.

Lemma walk_dirs_paths (visit : string -> entry -> result (list string))
    (root : string) (dirs : list string) (cs : list entry)
    (Q : string -> entry -> string -> Prop) :
  Forall (fun c => forall r l, visit r c = Ok l ->
            forall p, In p l -> Q r c p) cs ->
  forall below, walk_dirs visit root dirs cs = Ok below ->
    forall p, In p below ->
      exists d sub, In (Dir d sub) cs
                    /\ Q (PosixPath.join root d) (Dir d sub) p.
Proof.
  intros Hcs. induction Hcs as [|c cs Hc _ IH]; simpl; intros below Hb p Hp.
  - inversion Hb; subst. contradiction.
  - destruct c as [f | d sub].
    + destruct (IH _ Hb p Hp) as [d [sub [Hin HQ]]].
      exists d, sub. split; [right; exact Hin | exact HQ].
    + destruct (existsb (String.eqb d) dirs).
      * apply bindR_ok in Hb. destruct Hb as [a [Ha Hb]].
        apply bindR_ok in Hb. destruct Hb as [b [Hb' Hb]].
        inversion Hb; subst. apply in_app_or in Hp. destruct Hp as [Hp|Hp].
        -- exists d, sub. split; [left; reflexivity | eapply Hc; eassumption].
        -- destruct (IH _ Hb' p Hp) as [d' [sub' [Hin HQ]]].
           exists d', sub'. split; [right; exact Hin | exact HQ].
      * destruct (IH _ Hb p Hp) as [d' [sub' [Hin HQ]]].
        exists d', sub'. split; [right; exact Hin | exact HQ].
Qed.

Lemma walk_paths (self : t) (env : os_env) (directory : string) (top : entry) :
  forall root l, walk self env directory root top = Ok l ->
    forall p, In p l ->
      match top with
      | File _ => False
      | Dir _ cs =>
          forallb well_named cs = true ->
          exists names,
            leads_to_file names cs = true
            /\ Forall (fun n => is_name n = true) names
            /\ p = fold_left PosixPath.join names root
      end.
Proof.
  induction top as [name | name cs IH] using entry_tree_ind;
    intros root l Hw p Hp.
  - simpl in Hw. inversion Hw; subst. contradiction.
  - simpl in Hw.
    apply bindR_ok in Hw. destruct Hw as [dirs [Hdirs Hw]].
    apply bindR_ok in Hw. destruct Hw as [here [Hhere Hw]].
    apply bindR_ok in Hw. destruct Hw as [below [Hbelow Hw]].
    inversion Hw; subst. intros Hwell.
    rewrite forallb_forall in Hwell.
    apply in_app_or in Hp. destruct Hp as [Hp|Hp].
    + destruct (scan_files_eligible _ _ _ _ _ _ Hhere p Hp)
        as [_ [f [Hf ->]]].
      apply in_file_names_inv in Hf.
      exists [f]. split; [apply leads_to_file_here, Hf|].
      split; [|reflexivity].
      constructor; [|constructor]. exact (Hwell _ Hf).
    + destruct (walk_dirs_paths _ root dirs cs
                  (fun r c p => match c with
                                | File _ => False
                                | Dir _ cs' =>
                                    forallb well_named cs' = true ->
                                    exists names,
                                      leads_to_file names cs' = true
                                      /\ Forall (fun n => is_name n = true) names
                                      /\ p = fold_left PosixPath.join names r
                                end)
                  IH _ Hbelow p Hp) as [d [sub [Hin HQ]]].
      pose proof (Hwell _ Hin) as Hd. cbn [well_named] in Hd.
      apply andb_prop in Hd. destruct Hd as [Hd Hsub].
      destruct (HQ Hsub) as [names [Hl [Hn ->]]].
      exists (d :: names). split; [eapply leads_to_file_below; eassumption|].
      split; [constructor; assumption | reflexivity].
Qed.

(** X20.  In a tree of proper names and with an absolute working
    directory, every path a scan returns is the root argument with the
    names of a chain of directories and of a file of the tree joined to
    it, and its relative path is those names joined by slashes. *)
Theorem scanned_path_is_a_chain_of_names (self : t) (env : os_env)
    (directory : string) (cs : list entry) (files : list string) (p : string) :
  listing env directory = Some cs ->
  forallb well_named cs = true ->
  PosixPath.isabs (cwd env) = true ->
  scan_directory self env directory = Ok files ->
  In p files ->
  exists names,
    leads_to_file names cs = true
    /\ p = fold_left PosixPath.join names directory
    /\ PosixPath.relpath (cwd env) p directory = String.concat "/" names.
Proof.
  intros Hl Hwell Hcwd Hs Hp. unfold scan_directory in Hs. rewrite Hl in Hs.
  apply bindR_ok in Hs. destruct Hs as [found [Hfound Hs]].
  inversion Hs; subst; clear Hs.
  apply (proj1 (sorted_in _ _)) in Hp.
  destruct (walk_paths _ _ _ _ _ _ Hfound p Hp Hwell) as [names [Hn [Hall ->]]].
  exists names. split; [exact Hn|]. split; [reflexivity|].
  destruct names as [|n names]; [discriminate|].
  apply relpath_join_chain; assumption.
Qed.

End WalkedPaths.

Lemma scanned_path_is_a_chain_of_names_witness :
  In "proj/tmp/a.py" ["proj/foo.py"; "proj/test_foo.py"; "proj/tmp/a.py"]
  /\ exists names,
       leads_to_file names
         [File "foo.py"; File "test_foo.py"; File "b.txt";
          Dir "tmp" [File "a.py"]] = true
       /\ "proj/tmp/a.py" = fold_left PosixPath.join names "proj"
       /\ PosixPath.relpath (cwd Sample.env) "proj/tmp/a.py" "proj"
          = String.concat "/" names.
Proof.
  assert (Hin : In "proj/tmp/a.py"
                  ["proj/foo.py"; "proj/test_foo.py"; "proj/tmp/a.py"])
    by (right; right; left; reflexivity).
  split; [exact Hin|].
  apply (scanned_path_is_a_chain_of_names Sample.no_patterns Sample.env "proj"
           [File "foo.py"; File "test_foo.py"; File "b.txt";
            Dir "tmp" [File "a.py"]]
           ["proj/foo.py"; "proj/test_foo.py"; "proj/tmp/a.py"]).
  - reflexivity.
  - reflexivity.
  - reflexivity.
  - reflexivity.
  - exact Hin.
Defined.

(** ** The order of a listing *)

Lemma same_result_refl (r : result (list string)) : same_result r r.
Proof. destruct r; simpl; auto. Qed.

Lemma same_result_trans (r1 r2 r3 : result (list string)) :
  same_result r1 r2 -> same_result r2 r3 -> same_result r1 r3.
Proof.
  destruct r1, r2, r3; simpl; try contradiction; auto.
  apply Permutation_trans.
Qed.

Lemma collect_perm_by {A : Type} (f : A -> result (list string))
    (l l' : list A) :
  perm_by (fun x y => same_result (f x) (f y)) l l' ->
  same_result (collect f l) (collect f l').
Proof.
  intros Hp.
  induction Hp as [| x y l l' Hxy Hp IH
                   | x x' y y' l l' Hx Hy Hp IH
                   | l1 l2 l3 Hp1 IH1 Hp2 IH2].
  - simpl. apply Permutation_refl.
  - cbn [collect].
    destruct (f x) as [a|e], (f y) as [a'|e']; simpl in Hxy;
      try contradiction; simpl; [|exact I].
    destruct (collect f l) as [b|e], (collect f l') as [b'|e'];
      simpl in IH; try contradiction; simpl; [|exact I].
    apply Permutation_app; assumption.
  - cbn [collect].
    destruct (f y) as [ay|e]; destruct (f y') as [ay'|e'];
      simpl in Hy; try contradiction;
      destruct (f x) as [ax|e2]; destruct (f x') as [ax'|e2'];
      simpl in Hx; try contradiction; simpl; try exact I;
      destruct (collect f l) as [b|e3]; destruct (collect f l') as [b'|e3'];
      simpl in IH; try contradiction; simpl; try exact I.
    rewrite !app_assoc. apply Permutation_app; [|exact IH].
    eapply Permutation_trans; [apply Permutation_app_comm|].
    apply Permutation_app; assumption.
  - eapply same_result_trans; eassumption.
Qed.

Lemma collect_ext {A : Type} (f g : A -> result (list string)) (l : list A) :
  (forall x, In x l -> f x = g x) -> collect f l = collect g l.
Proof.
  induction l as [|x l IH]; intros Hfg; [reflexivity|].
  cbn [collect]. rewrite (Hfg x (or_introl eq_refl)), IH; [reflexivity|].
  intros y Hy. apply Hfg. right. exact Hy.
Qed.

Lemma perm_by_weaken {A : Type} (R S : A -> A -> Prop) (l l' : list A) :
  (forall x y, R x y -> S x y) -> perm_by R l l' -> perm_by S l l'.
Proof.
  intros HRS Hp.
  induction Hp; [constructor | constructor 2 | constructor 3 | econstructor 4];
    eauto.
Qed.

Section ListingOrder.
Context `{ReEngine}.
Import RepoToMarkdown.

Lemma prune_dirs_collect (self : t) (root : string) (cs : list entry) :
  prune_dirs self root (dir_names cs) = collect (prune_entry self root) cs.
Proof.
  induction cs as [|c cs IH]; [reflexivity|].
  destruct c as [f|d sub].
  - cbn [dir_names flat_map app collect prune_entry bindR].
    fold (dir_names cs). rewrite IH.
    destruct (collect (prune_entry self root) cs); reflexivity.
  - cbn [dir_names flat_map app collect prune_entry prune_dirs].
    fold (dir_names cs). rewrite IH.
    destruct (should_ignore self (PosixPath.join root d)) as [[|]|e];
      cbn [bindR]; [| |reflexivity];
      destruct (collect (prune_entry self root) cs); reflexivity.
Qed.

Lemma scan_files_collect (self : t) (env : os_env) (directory root : string)
    (cs : list entry) :
  scan_files self env directory root (file_names cs)
  = collect (scan_entry self env directory root) cs.
Proof.
  induction cs as [|c cs IH]; [reflexivity|].
  destruct c as [f|d sub].
  - cbn [file_names flat_map app collect scan_entry scan_files].
    fold (file_names cs). rewrite IH.
    destruct (should_ignore self _) as [ig|e]; cbn [bindR]; [|reflexivity].
    destruct (collect (scan_entry self env directory root) cs);
      cbn [bindR]; [|reflexivity].
    destruct (negb ig && is_code_file (PosixPath.join root f)); reflexivity.
  - cbn [file_names flat_map app collect scan_entry bindR].
    fold (file_names cs). rewrite IH.
    destruct (collect (scan_entry self env directory root) cs); reflexivity.
Qed.

Lemma walk_dirs_collect (visit : string -> entry -> result (list string))
    (root : string) (dirs : list string) (cs : list entry) :
  walk_dirs visit root dirs cs = collect (visit_entry visit root dirs) cs.
Proof.
  induction cs as [|c cs IH]; [reflexivity|].
  destruct c as [f|d sub].
  - cbn [walk_dirs collect visit_entry bindR].
    fold (walk_dirs visit root dirs). rewrite IH.
    destruct (collect (visit_entry visit root dirs) cs); reflexivity.
  - cbn [walk_dirs collect visit_entry].
    fold (walk_dirs visit root dirs). rewrite IH.
    destruct (existsb (String.eqb d) dirs); [reflexivity|].
    cbn [bindR].
    destruct (collect (visit_entry visit root dirs) cs); reflexivity.
Qed.

End ListingOrder.

Lemma existsb_permutation {A : Type} (f : A -> bool) (l l' : list A) :
  Permutation l l' -> existsb f l = existsb f l'.
Proof.
  intros Hp. induction Hp as [| x l l' _ IH | x y l | l1 l2 l3 _ IH1 _ IH2];
    cbn [existsb].
  - reflexivity.
  - rewrite IH. reflexivity.
  - destruct (f x), (f y); reflexivity.
  - rewrite IH1. exact IH2.
Qed.

Section ListingOrderWalk.
Context `{ReEngine}.
Import RepoToMarkdown.

Lemma same_tree_prune (self : t) (root : string) (c c' : entry) :
  same_tree c c' -> prune_entry self root c = prune_entry self root c'.
Proof. intros Hs. destruct Hs; reflexivity. Qed.

Lemma same_tree_scan (self : t) (env : os_env) (directory root : string)
    (c c' : entry) :
  same_tree c c' ->
  scan_entry self env directory root c = scan_entry self env directory root c'.
Proof. intros Hs. destruct Hs; reflexivity. Qed.

Lemma walk_same_tree (self : t) (env : os_env) (directory : string)
    (c c' : entry) :
  same_tree c c' ->
  same_tree c c'
  /\ forall root, same_result (walk self env directory root c)
                    (walk self env directory root c').
Proof.
  intros Hs.
  induction Hs as [f | d cs cs' Hcs] using same_tree_children_ind.
  - split; [constructor | intros root; apply same_result_refl].
  - assert (Htrees : perm_by same_tree cs cs')
      by (eapply perm_by_weaken; [|exact Hcs]; intros x y [Hxy _]; exact Hxy).
    split; [constructor; exact Htrees|].
    intros root. cbn [walk].
    rewrite !prune_dirs_collect, !scan_files_collect.
    assert (Hd : same_result (collect (prune_entry self root) cs)
                   (collect (prune_entry self root) cs')).
    { apply collect_perm_by. eapply perm_by_weaken; [|exact Htrees].
      intros x y Hxy. cbv beta.
      rewrite (same_tree_prune self root x y Hxy). apply same_result_refl. }
    assert (Hh : same_result (collect (scan_entry self env directory root) cs)
                   (collect (scan_entry self env directory root) cs')).
    { apply collect_perm_by. eapply perm_by_weaken; [|exact Htrees].
      intros x y Hxy. cbv beta.
      rewrite (same_tree_scan self env directory root x y Hxy).
      apply same_result_refl. }
    destruct (collect (prune_entry self root) cs) as [dirs|e];
      destruct (collect (prune_entry self root) cs') as [dirs'|e'];
      simpl in Hd; try contradiction; cbn [bindR]; [|exact I].
    destruct (collect (scan_entry self env directory root) cs) as [here|e];
      destruct (collect (scan_entry self env directory root) cs') as [here'|e'];
      simpl in Hh; try contradiction; cbn [bindR]; [|exact I].
    rewrite !walk_dirs_collect.
    assert (Hb : same_result
                   (collect (visit_entry (walk self env directory) root dirs) cs)
                   (collect (visit_entry (walk self env directory) root dirs') cs')).
    { rewrite (collect_ext
                 (visit_entry (walk self env directory) root dirs')
                 (visit_entry (walk self env directory) root dirs) cs').
      - apply collect_perm_by. eapply perm_by_weaken; [|exact Hcs].
        intros x y [Hxy Hw]. cbv beta.
        destruct Hxy as [f | d0 l l' Hl]; [apply same_result_refl|].
        cbn [visit_entry].
        destruct (existsb (String.eqb d0) dirs);
          [apply Hw | apply same_result_refl].
      - intros x _. destruct x as [f|d0 sub]; [reflexivity|].
        cbn [visit_entry].
        rewrite (existsb_permutation (String.eqb d0) dirs dirs' Hd).
        reflexivity. }
    destruct (collect (visit_entry (walk self env directory) root dirs) cs)
      as [below|e];
      destruct (collect (visit_entry (walk self env directory) root dirs') cs')
        as [below'|e'];
      simpl in Hb; try contradiction; cbn [bindR same_result]; [|exact I].
    apply Permutation_app; assumption.
Qed.

(** X21.  The scan does not depend on the order in which the file
    system lists the entries of a directory, at any depth: two listings
    of the same tree give the same list of files, or an exception
    both. *)
Theorem scan_ignores_the_listing_order (self : t) (env env' : os_env)
    (directory : string) (cs cs' : list entry) :
  cwd env' = cwd env ->
  listing env directory = Some cs ->
  listing env' directory = Some cs' ->
  perm_by same_tree cs cs' ->
  match scan_directory self env directory,
        scan_directory self env' directory with
  | Ok files, Ok files' => files = files'
  | Raise _, Raise _ => True
  | _, _ => False
  end.
Proof.
  intros Hcwd Hl Hl' Hp. unfold scan_directory. rewrite Hl, Hl'.
  assert (Henv : forall root c,
             walk self env' directory root c = walk self env directory root c).
  { intros root c. revert root.
    induction c as [f | d l IH] using entry_tree_ind; intros root;
      [reflexivity|].
    cbn [walk]. apply bindR_ext. intros dirs _.
    assert (Hsf : forall fs, scan_files self env' directory root fs
                             = scan_files self env directory root fs).
    { induction fs as [|x fs IHfs]; [reflexivity|].
      cbn [scan_files]. rewrite Hcwd, IHfs. reflexivity. }
    rewrite Hsf. apply bindR_ext. intros here _.
    rewrite !walk_dirs_collect.
    rewrite (collect_ext (visit_entry (walk self env' directory) root dirs)
               (visit_entry (walk self env directory) root dirs) l);
      [reflexivity|].
    intros x Hx. destruct x as [f|d0 sub]; [reflexivity|].
    cbn [visit_entry]. destruct (existsb (String.eqb d0) dirs); [|reflexivity].
    rewrite Forall_forall in IH. apply IH. exact Hx. }
  rewrite Henv.
  destruct (walk_same_tree self env directory (Dir directory cs)
              (Dir directory cs') (same_dir directory cs cs' Hp))
    as [_ Hw].
  specialize (Hw directory).
  destruct (walk self env directory directory (Dir directory cs)) as [l|e];
    destruct (walk self env directory directory (Dir directory cs')) as [l'|e'];
    simpl in Hw; try contradiction; cbn [bindR]; [|exact I].
  apply sorted_of_permutation. exact Hw.
Qed.

End ListingOrderWalk.

Lemma same_tree_refl (e : entry) : same_tree e e.
Proof.
  induction e as [f | d cs IH] using entry_tree_ind; constructor.
  induction IH as [|c cs Hc _ IHcs]; constructor; assumption.
Qed.

Lemma perm_by_same_tree_refl (cs : list entry) : perm_by same_tree cs cs.
Proof.
  induction cs as [|c cs IH]; constructor; [apply same_tree_refl | exact IH].
Qed.

Lemma scan_ignores_the_listing_order_witness :
  perm_by same_tree
    [File "foo.py"; File "test_foo.py"; File "b.txt"; Dir "tmp" [File "a.py"]]
    [File "test_foo.py"; File "foo.py"; File "b.txt"; Dir "tmp" [File "a.py"]]
  /\ match RepoToMarkdown.scan_directory Sample.no_patterns Sample.env "proj",
           RepoToMarkdown.scan_directory Sample.no_patterns Sample.swapped
             "proj" with
     | Ok files, Ok files' => files = files'
     | Raise _, Raise _ => True
     | _, _ => False
     end.
Proof.
  assert (Hp : perm_by same_tree
                 [File "foo.py"; File "test_foo.py"; File "b.txt";
                  Dir "tmp" [File "a.py"]]
                 [File "test_foo.py"; File "foo.py"; File "b.txt";
                  Dir "tmp" [File "a.py"]]).
  { apply perm_by_swap; [apply same_tree_refl | apply same_tree_refl |].
    apply perm_by_same_tree_refl. }
  split; [exact Hp|].
  exact (scan_ignores_the_listing_order Sample.no_patterns Sample.env
           Sample.swapped "proj" _ _ eq_refl eq_refl eq_refl Hp).
Defined.

(** ** Counts and sizes *)

Section Counts.
Context `{ReEngine}.
Import RepoToMarkdown.

Lemma totals_app (a b : list item) : totals (a ++ b) = totals a ++ totals b.
Proof. apply flat_map_app. Qed.

Lemma totals_index (env : os_env) (directory : string) (l : list string) :
  totals (map (index_item env directory) l) = [].
Proof. induction l as [|x l IH]; [reflexivity | exact IH]. Qed.

Lemma totals_blocks (env : os_env) (directory : string) (l : list string) :
  totals (flat_map (block_items env directory) l) = [].
Proof.
  induction l as [|x l IH]; [reflexivity|].
  cbn [flat_map]. rewrite totals_app, IH, app_nil_r.
  unfold block_items.
  destruct (fence_body_cases (content_value env x)) as [-> | ->]; reflexivity.
Qed.

(** X22.  The count written in the header of a document is the number
    of files rendered, and so are the numbers of index entries, of
    headings, of opening fences and of fenced texts. *)
Theorem written_count_is_the_number_of_blocks (self : t) (env : os_env)
    (directory output_file : string) :
  let doc := rendered_doc self env directory output_file in
  let files := rendered_files self env directory output_file in
  totals doc = match files with [] => [] | _ :: _ => [length files] end
  /\ length (Doc.index_paths doc) = length files
  /\ length (Doc.heading_paths doc) = length files
  /\ length (Doc.fence_tags doc) = length files
  /\ length (Doc.fenced doc None) = length files.
Proof.
  cbv zeta. rewrite generate_markdown_written.
  destruct (rendered_files self env directory output_file) as [|f files].
  - repeat split; reflexivity.
  - set (l := f :: files).
    rewrite document_index_paths, document_heading_paths.
    unfold document_items.
    rewrite !fence_tags_app, fence_tags_index, fence_tags_blocks.
    rewrite !totals_app, totals_index, totals_blocks.
    change ([Title ?a; Intro ?b; Total ?n; IndexHeading] ++ ?r)
      with (Title a :: Intro b :: Total n :: IndexHeading :: r).
    change (Doc.fenced (Title ?a :: Intro ?b :: Total ?n :: IndexHeading :: ?r) None)
      with (Doc.fenced r None).
    rewrite fenced_index.
    change (Doc.fenced ([IndexEnd] ++ ?r) None) with (Doc.fenced r None).
    rewrite fenced_blocks. cbn [app totals flat_map Doc.fence_tags].
    rewrite !length_map. repeat split; reflexivity.
Qed.

End Counts.

(** *** The size with thousands separators *)

Lemma uint_digits (d : Decimal.uint) :
  forallb is_digit (PyStr.chars (NilEmpty.string_of_uint d)) = true.
Proof. induction d; cbn; auto. Qed.

Lemma of_nat_digits (n : nat) :
  forallb is_digit (PyStr.chars (PyStr.of_nat n)) = true.
Proof.
  unfold PyStr.of_nat, NilZero.string_of_uint.
  destruct (Nat.to_uint n) eqn:E; try (rewrite <- E; apply uint_digits).
  reflexivity.
Qed.

Lemma digit_not_comma (c : ascii) : is_digit c = true -> not_comma c = true.
Proof.
  unfold is_digit, not_comma. destruct (Ascii.eqb_spec c ","%char) as [->|];
    [discriminate | reflexivity].
Qed.

Lemma group3_digits (ds : list ascii) (n : nat) :
  forallb is_digit ds = true ->
  filter not_comma (RepoToMarkdown.group3 ds n) = ds
  /\ forallb (fun c => is_digit c || Ascii.eqb c ","%char)
       (RepoToMarkdown.group3 ds n) = true.
Proof.
  revert n. induction ds as [|d ds IH]; intros n Hd; [split; reflexivity|].
  cbn [forallb] in Hd. apply andb_prop in Hd. destruct Hd as [Hd Hds].
  pose proof (digit_not_comma d Hd) as Hnc.
  cbn [RepoToMarkdown.group3].
  assert (Hcomma : not_comma ","%char = false) by reflexivity.
  destruct n as [|[|[|[|n]]]];
    match goal with
    | |- context [RepoToMarkdown.group3 ds ?k] =>
        destruct (IH k Hds) as [E1 E2]
    end;
    cbn [filter forallb]; rewrite ?Hcomma, ?Hnc, ?Hd, E1, E2;
    split; reflexivity.
Qed.

(** X23.  The size printed with thousands separators holds digits and
    commas only, and without the commas it is the decimal writing of
    the size. *)
Theorem size_keeps_its_digits (n : nat) :
  filter not_comma (PyStr.chars (RepoToMarkdown.with_commas n))
  = PyStr.chars (PyStr.of_nat n)
  /\ forallb (fun c => is_digit c || Ascii.eqb c ","%char)
       (PyStr.chars (RepoToMarkdown.with_commas n)) = true.
Proof.
  unfold RepoToMarkdown.with_commas. rewrite chars_of_chars.
  pose proof (of_nat_digits n) as Hd.
  assert (Hr : forallb is_digit (rev (PyStr.chars (PyStr.of_nat n))) = true).
  { rewrite forallb_forall in *. intros c Hc. apply Hd, in_rev. exact Hc. }
  destruct (group3_digits _ 0 Hr) as [Hf Ha]. split.
  - assert (Hrf : forall l, filter not_comma (rev l) = rev (filter not_comma l)).
    { induction l as [|x l IHl]; [reflexivity|].
      cbn [rev filter]. rewrite filter_app, IHl. cbn [filter].
      destruct (not_comma x); [reflexivity | apply app_nil_r]. }
    rewrite Hrf, Hf. apply rev_involutive.
  - rewrite forallb_forall in *. intros c Hc. apply Ha, in_rev. exact Hc.
Qed.
